(** * EmoBot: user store, conversation turns and follow-up dispatcher

    A shallow embedding of [main.py].  A Python [str] is a list of code
    points ([list N]); Python values are trees ([pyval]) whose [dict]s are
    association lists in insertion order; the backing file holds text,
    written by [json_dumps] and read by [json_loads]; handlers run in a
    small state-and-exception monad over the file and the trace of
    observable effects.

    Scope of the model.  Handlers run one after another: a handler is not
    interleaved with another one at its [await] points.  A reply to the
    chat of an update ([reply_text]) and a write of the file succeed; the
    completion endpoint, the delivery of a follow-up and the clocks answer
    arbitrarily ([env]).  [LOCAL_TZ] is the fixed offset of America/Lima
    (UTC-05:00, no daylight saving time).  The limits of the interpreter
    (depth of nesting, digits of an integer literal) are left out of the
    decoder. *)

From Stdlib Require Import String Ascii List NArith ZArith Lia Bool Arith.
From Stdlib Require DecimalFacts DecimalPos DecimalZ.
Import ListNotations.
Local Open Scope list_scope.
Local Open Scope N_scope.

(** ** Python [str] *)

Module PyStr.

Definition str := list N.

(** UTF-8 decoding, used to read the literals of the source. *)
Fixpoint utf8_decode (bs : list N) : str :=
  match bs with
  | [] => []
  | b0 :: r =>
      if b0 <? 192 then b0 :: utf8_decode r
      else if b0 <? 224 then
        match r with
        | b1 :: r1 => ((b0 - 192) * 64 + (b1 - 128)) :: utf8_decode r1
        | _ => [b0]
        end
      else if b0 <? 240 then
        match r with
        | b1 :: b2 :: r2 =>
            ((b0 - 224) * 4096 + (b1 - 128) * 64 + (b2 - 128)) :: utf8_decode r2
        | _ => [b0]
        end
      else
        match r with
        | b1 :: b2 :: b3 :: r3 =>
            ((b0 - 240) * 262144 + (b1 - 128) * 4096 + (b2 - 128) * 64
             + (b3 - 128)) :: utf8_decode r3
        | _ => [b0]
        end
  end.

(** A literal of the source as a [str]. *)
Definition lit (s : string) : str :=
  utf8_decode (map N_of_ascii (list_ascii_of_string s)).

Definition str_eqb (a b : str) : bool :=
  if list_eq_dec N.eq_dec a b then true else false.

(** [str.isspace] of one character. *)
Definition is_space (c : N) : bool :=
  ((9 <=? c) && (c <=? 13)) || ((28 <=? c) && (c <=? 32))
  || (c =? 133) || (c =? 160) || (c =? 5760)
  || ((8192 <=? c) && (c <=? 8202)) || (c =? 8232) || (c =? 8233)
  || (c =? 8239) || (c =? 8287) || (c =? 12288).

Fixpoint lstrip (s : str) : str :=
  match s with
  | [] => []
  | c :: r => if is_space c then lstrip r else s
  end.

Fixpoint rstrip (s : str) : str :=
  match s with
  | [] => []
  | c :: r =>
      match rstrip r with
      | [] => if is_space c then [] else [c]
      | r' => c :: r'
      end
  end.

(** [s.strip()] *)
Definition strip (s : str) : str := rstrip (lstrip s).

(** [s[:n]] *)
Definition take (n : nat) (s : str) : str := firstn n s.

(** [c in s] for a one-character [c] *)
Definition contains (c : N) (s : str) : bool := existsb (N.eqb c) s.

(** [s.split(sep)] for a one-character [sep] *)
Fixpoint split (sep : N) (s : str) : list str :=
  match s with
  | [] => [[]]
  | a :: r =>
      if a =? sep then [] :: split sep r
      else match split sep r with
           | [] => [[a]]
           | h :: t => (a :: h) :: t
           end
  end.

(** truth value of a [str] *)
Definition nonempty (s : str) : bool :=
  match s with [] => false | _ => true end.

(** [s.startswith(p)] *)
Fixpoint startswith (p s : str) : bool :=
  match p, s with
  | [], _ => true
  | a :: p', b :: s' => (a =? b) && startswith p' s'
  | _ :: _, [] => false
  end.

(** [sub in s] *)
Fixpoint is_substring (sub s : str) : bool :=
  startswith sub s ||
  match s with
  | [] => false
  | _ :: r => is_substring sub r
  end.

(** [s.lower()]: the ASCII and Latin-1 capitals are mapped, the case
    tables beyond them are left out (the source only asks whether the
    lowered text starts with [p], and [P] is the one capital of [p]). *)
Definition lower_char (c : N) : N :=
  if ((65 <=? c) && (c <=? 90))
     || ((192 <=? c) && (c <=? 222) && negb (c =? 215))
  then c + 32 else c.

Definition lower (s : str) : str := map lower_char s.

(** [str(z)] of an [int] *)
Fixpoint uint_chars (d : Decimal.uint) : str :=
  match d with
  | Decimal.Nil => []
  | Decimal.D0 d => 48 :: uint_chars d
  | Decimal.D1 d => 49 :: uint_chars d
  | Decimal.D2 d => 50 :: uint_chars d
  | Decimal.D3 d => 51 :: uint_chars d
  | Decimal.D4 d => 52 :: uint_chars d
  | Decimal.D5 d => 53 :: uint_chars d
  | Decimal.D6 d => 54 :: uint_chars d
  | Decimal.D7 d => 55 :: uint_chars d
  | Decimal.D8 d => 56 :: uint_chars d
  | Decimal.D9 d => 57 :: uint_chars d
  end.

Definition str_of_int (z : Z) : str :=
  match Z.to_int z with
  | Decimal.Pos d => uint_chars d
  | Decimal.Neg d => 45 :: uint_chars d
  end.

(** The decimal digit a character stands for, as a constructor. *)
Definition digit_of (c : N) : option (Decimal.uint -> Decimal.uint) :=
  if c =? 48 then Some Decimal.D0 else if c =? 49 then Some Decimal.D1
  else if c =? 50 then Some Decimal.D2 else if c =? 51 then Some Decimal.D3
  else if c =? 52 then Some Decimal.D4 else if c =? 53 then Some Decimal.D5
  else if c =? 54 then Some Decimal.D6 else if c =? 55 then Some Decimal.D7
  else if c =? 56 then Some Decimal.D8 else if c =? 57 then Some Decimal.D9
  else None.

Definition is_digit (c : N) : bool := (48 <=? c) && (c <=? 57).

(** The longest run of digits at the head of a text, and what follows. *)
Fixpoint scan_digits (t : str) : Decimal.uint * str :=
  match t with
  | [] => (Decimal.Nil, [])
  | c :: r =>
      match digit_of c with
      | Some mk => let (d, r') := scan_digits r in (mk d, r')
      | None => (Decimal.Nil, t)
      end
  end.

End PyStr.

(** ** Topic extractor *)

Module Topic.
Import PyStr.

Definition separators : list N := [46; 33; 63; 10].

(** The [for sep in ...] loop of [extract_topic_from_message]: [Some t]
    when an iteration returns [t], [None] when the loop runs out. *)
Fixpoint topic_loop (seps : list N) (message : str) : option str :=
  match seps with
  | [] => None
  | sep :: rest =>
      if contains sep message then
        let first := strip (hd [] (split sep message)) in
        if nonempty first then Some (strip (take 120 first))
        else topic_loop rest message
      else topic_loop rest message
  end.

Definition extract_topic_from_message (message : str) : str :=
  if negb (nonempty message) then []
  else match topic_loop separators message with
       | Some t => t
       | None => take 120 (strip message)
       end.

End Topic.

(** ** Python values *)

Module Py.
Import PyStr.

(** The values [json.load] builds and the handlers pass around.  A float
    is kept as the literal it was read from. *)
Unset Elimination Schemes.
Inductive pyval : Type :=
| PNone
| PBool (b : bool)
| PInt (z : Z)
| PFloat (literal : str)
| PStr (s : str)
| PList (l : list pyval)
| PDict (d : list (str * pyval)).
Set Elimination Schemes.

Definition dict := list (str * pyval).

(** [d.get(k)] *)
Fixpoint dict_get (k : str) (d : dict) : option pyval :=
  match d with
  | [] => None
  | (k', v) :: r => if str_eqb k' k then Some v else dict_get k r
  end.

(** [d[k] = v]: an existing key keeps its place, a new one goes last. *)
Fixpoint dict_set (k : str) (v : pyval) (d : dict) : dict :=
  match d with
  | [] => [(k, v)]
  | (k', v') :: r =>
      if str_eqb k' k then (k, v) :: r else (k', v') :: dict_set k v r
  end.

(** [k in d] *)
Definition dict_has (k : str) (d : dict) : bool :=
  match dict_get k d with Some _ => true | None => false end.

Definition keys (d : dict) : list str := map fst d.

(** [dict(pairs)] *)
Definition dict_of_pairs (pairs : list (str * pyval)) : dict :=
  fold_left (fun d kv => dict_set (fst kv) (snd kv) d) pairs [].

(** Truth value of a float literal: some digit of its mantissa is not 0
    ([NaN] and the infinities are true). *)
Fixpoint mantissa_nonzero (l : str) : bool :=
  match l with
  | [] => false
  | c :: r =>
      if (c =? 101) || (c =? 69) then false
      else if (49 <=? c) && (c <=? 57) then true
      else if (c =? 78) || (c =? 73) then true
      else mantissa_nonzero r
  end.

(** [bool(v)] *)
Definition truthy (v : pyval) : bool :=
  match v with
  | PNone => false
  | PBool b => b
  | PInt z => negb (Z.eqb z 0)
  | PFloat l => mantissa_nonzero l
  | PStr s => nonempty s
  | PList l => match l with [] => false | _ => true end
  | PDict d => match d with [] => false | _ => true end
  end.

(** [v == s] for a [str] [s] *)
Definition eq_str (v : pyval) (s : str) : bool :=
  match v with PStr t => str_eqb t s | _ => false end.

(** [l[-n:]] *)
Definition last_n {A} (n : nat) (l : list A) : list A :=
  skipn (length l - n) l.

End Py.

(** ** The JSON text of a value: [json.dump] and [json.load] *)

Module Json.
Import PyStr Py.

Definition hex_char (n : N) : N := if n <? 10 then 48 + n else 87 + n.

(** One character of [encode_basestring] (the encoder of
    [ensure_ascii=False]). *)
Definition escape_char (c : N) : str :=
  if c =? 34 then [92; 34]
  else if c =? 92 then [92; 92]
  else if c =? 10 then [92; 110]
  else if c =? 13 then [92; 114]
  else if c =? 9 then [92; 116]
  else if c =? 8 then [92; 98]
  else if c =? 12 then [92; 102]
  else if c <? 32 then [92; 117; 48; 48; hex_char (c / 16); hex_char (c mod 16)]
  else [c].

Definition encode_basestring (s : str) : str :=
  34 :: flat_map escape_char s ++ [34].

(** A line break and the indentation of a nesting level ([indent=2]). *)
Definition newline_indent (level : nat) : str :=
  10 :: repeat 32 (2 * level).

Fixpoint json_encode (level : nat) (v : pyval) : str :=
  match v with
  | PNone => lit "null"
  | PBool true => lit "true"
  | PBool false => lit "false"
  | PInt z => str_of_int z
  | PFloat l => l
  | PStr s => encode_basestring s
  | PList [] => lit "[]"
  | PList (x :: xs) =>
      91 :: newline_indent (S level) ++ json_encode (S level) x
      ++ (fix items (l : list pyval) : str :=
            match l with
            | [] => []
            | y :: l' =>
                44 :: newline_indent (S level) ++ json_encode (S level) y
                ++ items l'
            end) xs
      ++ newline_indent level ++ [93]
  | PDict [] => lit "{}"
  | PDict ((k, x) :: kvs) =>
      123 :: newline_indent (S level) ++ encode_basestring k ++ [58; 32]
      ++ json_encode (S level) x
      ++ (fix items (l : list (str * pyval)) : str :=
            match l with
            | [] => []
            | (k', y) :: l' =>
                44 :: newline_indent (S level) ++ encode_basestring k'
                ++ [58; 32] ++ json_encode (S level) y ++ items l'
            end) kvs
      ++ newline_indent level ++ [125]
  end.

(** [json.dumps(v, ensure_ascii=False, indent=2)] *)
Definition json_dumps (v : pyval) : str := json_encode 0 v.

(** *** Decoder *)

Definition is_ws (c : N) : bool :=
  (c =? 32) || (c =? 9) || (c =? 10) || (c =? 13).

Fixpoint skip_ws (t : str) : str :=
  match t with
  | [] => []
  | c :: r => if is_ws c then skip_ws r else t
  end.

Definition hex_val (c : N) : option N :=
  if (48 <=? c) && (c <=? 57) then Some (c - 48)
  else if (97 <=? c) && (c <=? 102) then Some (c - 87)
  else if (65 <=? c) && (c <=? 70) then Some (c - 55)
  else None.

Definition hex4 (a b c d : N) : option N :=
  match hex_val a, hex_val b, hex_val c, hex_val d with
  | Some x, Some y, Some z, Some w => Some (x * 4096 + y * 256 + z * 16 + w)
  | _, _, _, _ => None
  end.

Definition unescape (e : N) : option N :=
  if e =? 34 then Some 34 else if e =? 92 then Some 92
  else if e =? 47 then Some 47 else if e =? 98 then Some 8
  else if e =? 102 then Some 12 else if e =? 110 then Some 10
  else if e =? 114 then Some 13 else if e =? 116 then Some 9
  else None.

Definition cons_char (c : N) (o : option (str * str)) : option (str * str) :=
  match o with
  | Some (s, rest) => Some (c :: s, rest)
  | None => None
  end.

(** [scanstring] in strict mode, from just after the opening quote: the
    decoded text and what follows the closing quote. *)
Fixpoint scanstring (t : str) : option (str * str) :=
  match t with
  | [] => None
  | c :: r =>
      if c =? 34 then Some ([], r)
      else if c =? 92 then
        match r with
        | [] => None
        | e :: r1 =>
            if e =? 117 then
              match r1 with
              | a :: b :: c2 :: d :: r2 =>
                  match hex4 a b c2 d with
                  | None => None
                  | Some uni =>
                      if (55296 <=? uni) && (uni <=? 56319) then
                        match r2 with
                        | b1 :: u1 :: e1 :: e2 :: e3 :: e4 :: r3 =>
                            match (if (b1 =? 92) && (u1 =? 117)
                                   then hex4 e1 e2 e3 e4 else None) with
                            | Some uni2 =>
                                if (56320 <=? uni2) && (uni2 <=? 57343) then
                                  cons_char
                                    (65536 + (uni - 55296) * 1024
                                     + (uni2 - 56320))
                                    (scanstring r3)
                                else cons_char uni (scanstring r2)
                            | None => cons_char uni (scanstring r2)
                            end
                        | _ => cons_char uni (scanstring r2)
                        end
                      else cons_char uni (scanstring r2)
                  end
              | _ => None
              end
            else
              match unescape e with
              | Some ch => cons_char ch (scanstring r1)
              | None => None
              end
        end
      else if c <? 32 then None
      else cons_char c (scanstring r)
  end.

(** [p] removed from the head of [t] *)
Fixpoint strip_prefix (p t : str) : option str :=
  match p, t with
  | [], _ => Some t
  | a :: p', b :: t' => if a =? b then strip_prefix p' t' else None
  | _ :: _, [] => None
  end.

(** The match of [NUMBER_RE] at the head of [t]: an optional minus sign,
    then either a lone 0 or a run of digits that starts with 1 to 9; then
    optionally a dot with digits, and optionally an exponent. *)
Definition scan_int_part (t : str) : option (Decimal.uint * str) :=
  match t with
  | [] => None
  | c :: r =>
      if c =? 48 then Some (Decimal.D0 Decimal.Nil, r)
      else if is_digit c then Some (scan_digits t)
      else None
  end.

Definition scan_frac (t : str) : option str :=
  match t with
  | c :: r =>
      if c =? 46 then
        match scan_digits r with
        | (Decimal.Nil, _) => None
        | (_, r') => Some r'
        end
      else None
  | [] => None
  end.

Definition scan_exp (t : str) : option str :=
  match t with
  | c :: r =>
      if (c =? 101) || (c =? 69) then
        let r1 := match r with
                  | s :: r' => if (s =? 45) || (s =? 43) then r' else r
                  | [] => r
                  end in
        match scan_digits r1 with
        | (Decimal.Nil, _) => None
        | (_, r') => Some r'
        end
      else None
  | [] => None
  end.

Definition scan_number (t : str) : option (pyval * str) :=
  let (neg, t1) := match t with
                   | c :: r => if c =? 45 then (true, r) else (false, t)
                   | [] => (false, t)
                   end in
  match scan_int_part t1 with
  | None => None
  | Some (d, r) =>
      let r1 := match scan_frac r with Some r' => r' | None => r end in
      let r2 := match scan_exp r1 with Some r' => r' | None => r1 end in
      if Nat.eqb (length r2) (length r) then
        Some (PInt (Z.of_int (if neg then Decimal.Neg d else Decimal.Pos d)), r)
      else
        Some (PFloat (firstn (length t - length r2) t), r2)
  end.

(** The constants and numbers of [scan_once]. *)
Definition scan_atom (t : str) : option (pyval * str) :=
  match strip_prefix (lit "null") t with
  | Some r => Some (PNone, r)
  | None =>
  match strip_prefix (lit "true") t with
  | Some r => Some (PBool true, r)
  | None =>
  match strip_prefix (lit "false") t with
  | Some r => Some (PBool false, r)
  | None =>
  match scan_number t with
  | Some res => Some res
  | None =>
  match strip_prefix (lit "NaN") t with
  | Some r => Some (PFloat (lit "NaN"), r)
  | None =>
  match strip_prefix (lit "Infinity") t with
  | Some r => Some (PFloat (lit "Infinity"), r)
  | None =>
  match strip_prefix (lit "-Infinity") t with
  | Some r => Some (PFloat (lit "-Infinity"), r)
  | None => None
  end end end end end end end.

(** [scan_once], [JSONArray]'s loop and [JSONObject]'s loop; the fuel
    bounds the nesting of calls. *)
Fixpoint scan_once (fuel : nat) (t : str) : option (pyval * str) :=
  match fuel with
  | O => None
  | S f =>
      match t with
      | [] => None
      | c :: r =>
          if c =? 34 then
            match scanstring r with
            | Some (s, r') => Some (PStr s, r')
            | None => None
            end
          else if c =? 123 then
            match skip_ws r with
            | c' :: r' =>
                if c' =? 125 then Some (PDict [], r')
                else if c' =? 34 then
                  match object_loop f r' with
                  | Some (pairs, r'') => Some (PDict (dict_of_pairs pairs), r'')
                  | None => None
                  end
                else None
            | [] => None
            end
          else if c =? 91 then
            match skip_ws r with
            | c' :: r' =>
                if c' =? 93 then Some (PList [], r')
                else
                  match array_loop f (c' :: r') with
                  | Some (vs, r'') => Some (PList vs, r'')
                  | None => None
                  end
            | [] => None
            end
          else scan_atom t
      end
  end

with array_loop (fuel : nat) (t : str) : option (list pyval * str) :=
  match fuel with
  | O => None
  | S f =>
      match scan_once f t with
      | None => None
      | Some (v, r) =>
          match skip_ws r with
          | c :: r' =>
              if c =? 93 then Some ([v], r')
              else if c =? 44 then
                match array_loop f (skip_ws r') with
                | Some (vs, r'') => Some (v :: vs, r'')
                | None => None
                end
              else None
          | [] => None
          end
      end
  end

(** [object_loop] starts just after the opening quote of a key. *)
with object_loop (fuel : nat) (t : str) : option (list (str * pyval) * str) :=
  match fuel with
  | O => None
  | S f =>
      match scanstring t with
      | None => None
      | Some (k, r) =>
          match skip_ws r with
          | c :: r1 =>
              if c =? 58 then
                match scan_once f (skip_ws r1) with
                | None => None
                | Some (v, r2) =>
                    match skip_ws r2 with
                    | c' :: r3 =>
                        if c' =? 125 then Some ([(k, v)], r3)
                        else if c' =? 44 then
                          match skip_ws r3 with
                          | q :: r4 =>
                              if q =? 34 then
                                match object_loop f r4 with
                                | Some (kvs, r5) => Some ((k, v) :: kvs, r5)
                                | None => None
                                end
                              else None
                          | [] => None
                          end
                        else None
                    | [] => None
                    end
                end
              else None
          | [] => None
          end
      end
  end.

(** [json.loads]: [None] stands for [JSONDecodeError]. *)
Definition json_loads (t : str) : option pyval :=
  match scan_once (S (length t)) (skip_ws t) with
  | Some (v, r) => match skip_ws r with [] => Some v | _ => None end
  | None => None
  end.

End Json.

(** ** Clock readings *)

Module Clock.
Import PyStr.
Local Open Scope Z_scope.

(** One reading of the clocks: the instant (POSIX seconds and the
    microseconds within the second) and the offset from UTC, in seconds,
    of the time zone the process runs in. *)
Record clock : Type := {
  posix : Z;
  micros : Z;
  host_offset : Z
}.

(** [LOCAL_TZ = pytz.timezone("America/Lima")]: UTC-05:00 (the zone has
    had no other offset since 1994). *)
Definition LOCAL_TZ_offset : Z := -18000.

(** Year, month and day of a day count from 1970-01-01. *)
Definition civil (days : Z) : Z * Z * Z :=
  let z := days + 719468 in
  let era := z / 146097 in
  let doe := z mod 146097 in
  let yoe := (doe - doe / 1460 + doe / 36524 - doe / 146096) / 365 in
  let doy := doe - (365 * yoe + yoe / 4 - yoe / 100) in
  let mp := (5 * doy + 2) / 153 in
  let d := doy - (153 * mp + 2) / 5 + 1 in
  let m := if mp <? 10 then mp + 3 else mp - 9 in
  let y := yoe + era * 400 + (if m <=? 2 then 1 else 0) in
  (y, m, d).

(** [z] in decimal, padded with zeros to [width] digits. *)
Definition pad (width : nat) (z : Z) : str :=
  let s := str_of_int z in
  repeat 48%N (width - length s) ++ s.

(** [date.isoformat()] *)
Definition date_iso (days : Z) : str :=
  let '(y, m, d) := civil days in
  pad 4 y ++ [45%N] ++ pad 2 m ++ [45%N] ++ pad 2 d.

(** [datetime.now(LOCAL_TZ).hour] *)
Definition current_hour (c : clock) : Z :=
  ((posix c + LOCAL_TZ_offset) / 3600) mod 24.

(** [date.today().isoformat()]: the date in the time zone of the host. *)
Definition today_str (c : clock) : str :=
  date_iso ((posix c + host_offset c) / 86400).

(** The date in [LOCAL_TZ]. *)
Definition local_date (c : clock) : str :=
  date_iso ((posix c + LOCAL_TZ_offset) / 86400).

(** [datetime.now(LOCAL_TZ).isoformat()] *)
Definition now_isoformat (c : clock) : str :=
  let t := posix c + LOCAL_TZ_offset in
  let s := t mod 86400 in
  date_iso (t / 86400) ++ [84%N] ++ pad 2 (s / 3600) ++ [58%N]
  ++ pad 2 ((s / 60) mod 60) ++ [58%N] ++ pad 2 (s mod 60)
  ++ (if micros c =? 0 then [] else 46%N :: pad 6 (micros c))
  ++ lit "-05:00".

End Clock.

(** ** Exceptions and the operations of Python values that can raise *)

Module PyOps.
Import PyStr Py.

Inductive exn : Type :=
| FileNotFoundError
| UnicodeDecodeError
| JSONDecodeError
| TypeError
| AttributeError
| KeyError
| IndexError
| ValueError
| HTTPError
| TelegramError
| EnvironmentError.

Inductive result (A : Type) : Type :=
| Ok (a : A)
| Raise (e : exn).
Arguments Ok {A} a.
Arguments Raise {A} e.

Definition rbind {A B} (r : result A) (k : A -> result B) : result B :=
  match r with
  | Ok a => k a
  | Raise e => Raise e
  end.

(** [s in v] for a [str] [s] *)
Definition py_in (s : str) (v : pyval) : result bool :=
  match v with
  | PDict d => Ok (dict_has s d)
  | PList l => Ok (existsb (fun x => eq_str x s) l)
  | PStr t => Ok (is_substring s t)
  | _ => Raise TypeError
  end.

(** [v[s]] for a [str] [s] *)
Definition py_getitem (v : pyval) (s : str) : result pyval :=
  match v with
  | PDict d => match dict_get s d with Some x => Ok x | None => Raise KeyError end
  | _ => Raise TypeError
  end.

(** [v[0]] *)
Definition py_first (v : pyval) : result pyval :=
  match v with
  | PList l => match l with x :: _ => Ok x | [] => Raise IndexError end
  | PStr s => match s with c :: _ => Ok (PStr [c]) | [] => Raise IndexError end
  | PDict _ => Raise KeyError
  | _ => Raise TypeError
  end.

(** [len(v)] *)
Definition py_len (v : pyval) : result nat :=
  match v with
  | PList l => Ok (length l)
  | PStr s => Ok (length s)
  | PDict d => Ok (length d)
  | _ => Raise TypeError
  end.

(** [v.get(k, default)] *)
Definition py_get (v : pyval) (k : str) (default : pyval) : result pyval :=
  match v with
  | PDict d => Ok (match dict_get k d with Some x => x | None => default end)
  | _ => Raise AttributeError
  end.

(** [v[k] = x]; the value after the assignment *)
Definition py_setitem (v : pyval) (k : str) (x : pyval) : result pyval :=
  match v with
  | PDict d => Ok (PDict (dict_set k x d))
  | _ => Raise TypeError
  end.

(** [v.append(x)]; the list after the call *)
Definition py_append (v : pyval) (x : pyval) : result pyval :=
  match v with
  | PList l => Ok (PList (l ++ [x]))
  | _ => Raise AttributeError
  end.

(** [v[-n:]] *)
Definition py_last (n : nat) (v : pyval) : result pyval :=
  match v with
  | PList l => Ok (PList (last_n n l))
  | PStr s => Ok (PStr (last_n n s))
  | _ => Raise TypeError
  end.

(** The members [list.extend(v)] adds *)
Definition py_iter (v : pyval) : result (list pyval) :=
  match v with
  | PList l => Ok l
  | PStr s => Ok (map (fun c => PStr [c]) s)
  | PDict d => Ok (map (fun kv => PStr (fst kv)) d)
  | _ => Raise TypeError
  end.

(** [v.strip()] *)
Definition py_strip (v : pyval) : result str :=
  match v with
  | PStr s => Ok (strip s)
  | _ => Raise AttributeError
  end.

(** [v.lower()] *)
Definition py_lower (v : pyval) : result str :=
  match v with
  | PStr s => Ok (lower s)
  | _ => Raise AttributeError
  end.

(** [repr] of a [str]: quoted, with the escapes of the ASCII range and of
    the controls of Latin-1; the code points above are taken as
    printable. *)
Definition hex2 (c : N) : str :=
  [Json.hex_char (c / 16); Json.hex_char (c mod 16)].

Definition repr_char (quote : N) (c : N) : str :=
  if (c =? quote) || (c =? 92) then [92; c]
  else if c =? 9 then [92; 116]
  else if c =? 10 then [92; 110]
  else if c =? 13 then [92; 114]
  else if (c <? 32) || ((127 <=? c) && (c <=? 160)) || (c =? 173)
       then 92 :: 120 :: hex2 c
  else [c].

Definition repr_str (s : str) : str :=
  let quote := if contains 39 s && negb (contains 34 s) then 34 else 39 in
  quote :: flat_map (repr_char quote) s ++ [quote].

(** [repr(v)] *)
Fixpoint py_repr (v : pyval) : str :=
  match v with
  | PNone => lit "None"
  | PBool true => lit "True"
  | PBool false => lit "False"
  | PInt z => str_of_int z
  | PFloat l => l
  | PStr s => repr_str s
  | PList l =>
      91 :: match l with
            | [] => []
            | x :: xs =>
                py_repr x
                ++ (fix items (l : list pyval) : str :=
                      match l with
                      | [] => []
                      | y :: l' => 44 :: 32 :: py_repr y ++ items l'
                      end) xs
            end ++ [93]
  | PDict d =>
      123 :: match d with
             | [] => []
             | (k, x) :: kvs =>
                 repr_str k ++ 58 :: 32 :: py_repr x
                 ++ (fix items (l : list (str * pyval)) : str :=
                       match l with
                       | [] => []
                       | (k', y) :: l' =>
                           44 :: 32 :: repr_str k' ++ 58 :: 32 :: py_repr y
                           ++ items l'
                       end) kvs
             end ++ [125]
  end.

(** [str(v)], the text an f-string puts for [{v}] *)
Definition py_str (v : pyval) : str :=
  match v with
  | PStr s => s
  | _ => py_repr v
  end.

(** [int(s)] of a [str]: surrounding whitespace, a sign, and ASCII digits
    with single underscores between them. *)
Fixpoint int_digits (after_digit : bool) (acc : Z) (t : str) : option Z :=
  match t with
  | [] => if after_digit then Some acc else None
  | c :: r =>
      if is_digit c then int_digits true (acc * 10 + Z.of_N (c - 48)) r
      else if (c =? 95) && after_digit then
        match r with
        | [] => None
        | _ => int_digits false acc r
        end
      else None
  end.

Definition py_int (s : str) : result Z :=
  let t := strip s in
  let (neg, t1) := match t with
                   | c :: r => if c =? 45 then (true, r)
                               else if c =? 43 then (false, r) else (false, t)
                   | [] => (false, t)
                   end in
  match int_digits false 0%Z t1 with
  | Some z => Ok (if neg then (- z)%Z else z)
  | None => Raise ValueError
  end.

End PyOps.

(** ** The bot: state, effects and the user store *)

Module Bot.
Import PyStr Py Json PyOps Topic Clock.

(** The backing file [data/users.json]. *)
Inductive file_state : Type :=
| Missing
| Undecodable
| Text (t : str).

Inductive reg_state : Type :=
| REGISTER_NAME
| REGISTER_TIME
| REGISTER_PERSONALITY.

Inductive markup : Type :=
| ReplyKeyboardMarkup (keyboard : list (list str))
| ReplyKeyboardRemove.

Inductive log_level : Type := INFO | ERROR | EXCEPTION.

Inductive log_arg : Type :=
| ArgValue (v : pyval)
| ArgExn (e : exn).

(** What the process does to the outside, in order. *)
Inductive event : Type :=
| Wrote (text : str)
| Requested (messages : list pyval)
| Replied (user : Z) (text : str) (reply_markup : option markup)
| SendMessage (chat_id : Z) (text : str) (delivered : bool)
| Logged (level : log_level) (format : str) (args : list log_arg).

(** The file, the memory the front end keeps for the registration
    dialogue ([context.user_data] and the state of each conversation),
    and the effects so far. *)
Record world : Type := {
  file : file_state;
  user_data : list (Z * dict);
  conversations : list (Z * reg_state);
  trace : list event
}.

(** What answers from outside: the completion endpoint (by the messages
    posted), the delivery of a message, and the clocks. *)
Inductive http_outcome : Type :=
| NetworkError
| Timeout
| Response (status : Z) (body : option str).

Record env : Type := {
  post : list pyval -> http_outcome;
  deliver : Z -> str -> bool;
  clocks : clock
}.

(** *** State and exceptions *)

Definition M (S A : Type) : Type := S -> result A * S.

Definition ret {S A} (a : A) : M S A := fun s => (Ok a, s).

Definition bind {S A B} (m : M S A) (k : A -> M S B) : M S B :=
  fun s => match m s with
           | (Ok a, s') => k a s'
           | (Raise e, s') => (Raise e, s')
           end.

Definition raise {S A} (e : exn) : M S A := fun s => (Raise e, s).

Definition lift {S A} (r : result A) : M S A := fun s => (r, s).

(** [try: m except Exception as e: h e] *)
Definition try_except {S A} (m : M S A) (h : exn -> M S A) : M S A :=
  fun s => match m s with
           | (Ok a, s') => (Ok a, s')
           | (Raise e, s') => h e s'
           end.

Notation "x <- m ;; k" := (bind m (fun x => k))
  (at level 61, m at next level, right associativity).
Notation "m ;;; k" := (bind m (fun _ => k))
  (at level 61, right associativity).

Definition add_events (w : world) (evs : list event) : world :=
  {| file := file w; user_data := user_data w;
     conversations := conversations w; trace := trace w ++ evs |}.

(** The file rewritten with [t]. *)
Definition write_file (t : str) (w : world) : world :=
  {| file := Text t; user_data := user_data w;
     conversations := conversations w; trace := trace w ++ [Wrote t] |}.

Definition emit (e : event) : M world unit :=
  fun w => (Ok tt, add_events w [e]).

Definition reply_text (user : Z) (text : str) (m : option markup) : M world unit :=
  emit (Replied user text m).

(** *** User storage *)

(** [_load_users_sync] *)
Definition load_users : M world pyval :=
  fun w => match file w with
           | Missing => (Raise FileNotFoundError, w)
           | Undecodable => (Raise UnicodeDecodeError, w)
           | Text t =>
               match json_loads t with
               | Some v => (Ok v, w)
               | None => (Ok (PDict []), w)
               end
           end.

(** [_save_users_sync] *)
Definition save_users (users : pyval) : M world unit :=
  fun w => (Ok tt, write_file (json_dumps users) w).

(** The module-level set-up: the file is created, holding [{}], when it
    does not exist. *)
Definition create_store : M world unit :=
  fun w => match file w with
           | Missing => (Ok tt, write_file (json_dumps (PDict [])) w)
           | _ => (Ok tt, w)
           end.

(** *** OpenRouter *)

Definition PETER_PROMPT : str :=
  lit "Eres Peter, un asistente educativo y emocional masculino. Eres calmado, reflexivo y racional, pero empático. Usas un lenguaje sereno, motivador y lógico.".

Definition WUEN_PROMPT : str :=
  lit "Eres Wuen, una asistente emocional y educativa femenina. Eres cálida, comprensiva y cercana. Hablas con ternura y empatía, ayudando a las personas a sentirse escuchadas y guiadas.".

Definition FALLBACK_FORMAT : str :=
  lit "Lo siento, tuve un problema al procesar la respuesta.".

Definition FALLBACK_CONNECT : str :=
  lit "Lo siento, no puedo conectarme con el servicio de IA ahora mismo.".

(** [{"role": role, "content": content}] *)
Definition turn (role content : str) : pyval :=
  PDict [(lit "role", PStr role); (lit "content", PStr content)].

(** The text of the reply in the body of a response, [None] when the
    body holds none. *)
Definition extract_content (data : pyval) : result pyval :=
  rbind (py_in (lit "choices") data) (fun has_choices =>
  if has_choices then
    rbind (py_getitem data (lit "choices")) (fun choices =>
    rbind (py_len choices) (fun n =>
    if (0 <? n)%nat then
      rbind (py_first choices) (fun choice =>
      rbind (py_in (lit "message") choice) (fun has_message =>
      rbind (if has_message
             then rbind (py_getitem choice (lit "message"))
                        (fun m => py_in (lit "content") m)
             else Ok false) (fun has_content =>
      if has_content then
        rbind (py_getitem choice (lit "message")) (fun m =>
        py_getitem m (lit "content"))
      else
        rbind (py_in (lit "text") choice) (fun has_text =>
        if has_text then py_getitem choice (lit "text") else Ok PNone))))
    else Ok PNone))
  else Ok PNone).

(** [resp.raise_for_status()] passes the 2xx statuses. *)
Definition is_success (status : Z) : bool :=
  ((200 <=? status) && (status <=? 299))%Z.

(** The [messages] of the request. *)
Definition chat_messages (user_message : str)
    (personality last_topic history : pyval) : result (list pyval) :=
  rbind (py_lower personality) (fun lowered =>
  let system_prompt :=
    if startswith (lit "p") lowered then PETER_PROMPT else WUEN_PROMPT in
  let messages := [turn (lit "system") system_prompt] in
  let messages :=
    if truthy last_topic
    then messages ++ [turn (lit "system")
                         (lit "Último tema del usuario: " ++ py_str last_topic)]
    else messages in
  rbind (if truthy history
         then rbind (py_last 8 history) (fun recent =>
              rbind (py_iter recent) (fun more => Ok (messages ++ more)))
         else Ok messages) (fun messages =>
  Ok (messages ++ [turn (lit "user") user_message]))).

(** The [try] block: the request, and the reply read from the response;
    any exception gives the fallback. *)
Definition complete (e : env) (messages : list pyval) : M world str :=
  try_except
    (emit (Requested messages) ;;;
     match post e messages with
     | NetworkError => raise HTTPError
     | Timeout => raise HTTPError
     | Response status body =>
         if negb (is_success status) then raise HTTPError
         else
           data <- match body with
                   | None => raise UnicodeDecodeError
                   | Some t => match json_loads t with
                               | Some d => ret d
                               | None => raise JSONDecodeError
                               end
                   end ;;
           content <- lift (extract_content data) ;;
           if negb (truthy content) then
             emit (Logged ERROR (lit "Formato inesperado de OpenRouter: %s")
                     [ArgValue data]) ;;;
             ret FALLBACK_FORMAT
           else lift (py_strip content)
     end)
    (fun ex =>
       emit (Logged EXCEPTION (lit "Error llamando a OpenRouter: %s")
               [ArgExn ex]) ;;;
       ret FALLBACK_CONNECT).

Definition openrouter_chat (e : env) (user_id user_message : str)
    (personality last_topic history : pyval) : M world str :=
  messages <- lift (chat_messages user_message personality last_topic history) ;;
  complete e messages.

(** *** Registration dialogue *)

Definition TIMESLOT_HOUR : list (str * Z) :=
  [(lit "mañana", 8%Z); (lit "manana", 8%Z); (lit "tarde", 15%Z);
   (lit "noche", 21%Z)].

Fixpoint table_get (k : str) (t : list (str * Z)) : option Z :=
  match t with
  | [] => None
  | (k', h) :: r => if str_eqb k' k then Some h else table_get k r
  end.

(** [TIMESLOT_HOUR.get(v)]: a list or a dict cannot be hashed. *)
Definition timeslot_hour (v : pyval) : result (option Z) :=
  match v with
  | PStr s => Ok (table_get s TIMESLOT_HOUR)
  | PList _ => Raise TypeError
  | PDict _ => Raise TypeError
  | _ => Ok None
  end.












(** *** Conversation *)

Definition NOT_REGISTERED : str :=
  lit "Aún no estás registrado. Envía /start para registrarte.".

Definition handle_message (e : env) (user : Z) (message_text : str)
    : M world unit :=
  let text := strip message_text in
  let uid := str_of_int user in
  users <- load_users ;;
  registered <- lift (py_in uid users) ;;
  if negb registered then reply_text user NOT_REGISTERED None
  else
    user_ <- lift (py_getitem users uid) ;;
    personality <- lift (py_get user_ (lit "personality") (PStr (lit "Wuen"))) ;;
    history <- lift (py_get user_ (lit "history") (PList [])) ;;
    history <- lift (py_append history (turn (lit "user") text)) ;;
    let last_topic := extract_topic_from_message text in
    user_ <- lift (py_setitem user_ (lit "last_topic") (PStr last_topic)) ;;
    recent <- lift (py_last 30 history) ;;
    user_ <- lift (py_setitem user_ (lit "history") recent) ;;
    user_ <- lift (py_setitem user_ (lit "last_message_date")
                     (PStr (now_isoformat (clocks e)))) ;;
    users <- lift (py_setitem users uid user_) ;;
    save_users users ;;;
    reply <- openrouter_chat e uid text personality (PStr last_topic) history ;;
    users <- load_users ;;
    user_ <- lift (py_getitem users uid) ;;
    history <- lift (py_getitem user_ (lit "history")) ;;
    history <- lift (py_append history (turn (lit "assistant") reply)) ;;
    recent <- lift (py_last 30 history) ;;
    user_ <- lift (py_setitem user_ (lit "history") recent) ;;
    users <- lift (py_setitem users uid user_) ;;
    save_users users ;;;
    reply_text user reply None.



(** *** Scheduler *)

(** A run of [send_followups] works on the [users] it loaded, a dict in
    memory that the loop updates in place, next to the world. *)
Record tick_state : Type := {
  users_mem : dict;
  tick_world : world
}.

Definition in_world {A} (m : M world A) : M tick_state A :=
  fun s => let (r, w) := m (tick_world s) in
           (r, {| users_mem := users_mem s; tick_world := w |}).

Definition get_users : M tick_state dict :=
  fun s => (Ok (users_mem s), s).

Definition put_users (d : dict) : M tick_state unit :=
  fun s => (Ok tt, {| users_mem := d; tick_world := tick_world s |}).

(** [users[uid][k] = v] *)
Definition set_field (uid k : str) (v : pyval) : M tick_state unit :=
  users <- get_users ;;
  u <- lift (py_getitem (PDict users) uid) ;;
  u <- lift (py_setitem u k v) ;;
  put_users (dict_set uid u users).

(** [users[uid].setdefault('history', []).append(x)] *)
Definition append_history (uid : str) (x : pyval) : M tick_state unit :=
  users <- get_users ;;
  u <- lift (py_getitem (PDict users) uid) ;;
  match u with
  | PDict d =>
      match dict_get (lit "history") d with
      | Some h =>
          h <- lift (py_append h x) ;;
          put_users (dict_set uid (PDict (dict_set (lit "history") h d)) users)
      | None =>
          put_users
            (dict_set uid (PDict (dict_set (lit "history") (PList [x]) d)) users)
      end
  | _ => raise AttributeError
  end.

(** [bot.send_message(chat_id, text)] *)
Definition send_message (e : env) (chat_id : Z) (text : str) : M world unit :=
  emit (SendMessage chat_id text (deliver e chat_id text)) ;;;
  if deliver e chat_id text then ret tt else raise TelegramError.

(** [current_hour != target_hour] *)
Definition hour_differs (current_hour : Z) (target_hour : option Z) : bool :=
  match target_hour with
  | Some h => negb (Z.eqb current_hour h)
  | None => true
  end.

(** The statements of the [try] block that follow the sending. *)
Definition record_followup (e : env) (uid : str) (name : pyval) (reply : str)
    : M tick_state unit :=
  let now := clocks e in
  set_field uid (lit "last_sent_date") (PStr (today_str now)) ;;;
  set_field uid (lit "last_sent_time") (PStr (now_isoformat now)) ;;;
  append_history uid (turn (lit "assistant") reply) ;;;
  users <- get_users ;;
  u <- lift (py_getitem (PDict users) uid) ;;
  h <- lift (py_getitem u (lit "history")) ;;
  recent <- lift (py_last 30 h) ;;
  set_field uid (lit "history") recent ;;;
  users <- get_users ;;
  in_world (save_users (PDict users)) ;;;
  in_world (emit (Logged INFO (lit "Sent follow-up to %s (%s)")
                    [ArgValue (PStr uid); ArgValue name])).

(** One turn of the loop of [send_followups]. *)
Definition followup (e : env) (uid : str) (info : pyval) : M tick_state unit :=
  let now := clocks e in
  timeslot <- lift (py_get info (lit "time") PNone) ;;
  if negb (truthy timeslot) then ret tt
  else
    target_hour <- lift (timeslot_hour timeslot) ;;
    last_sent <- lift (py_get info (lit "last_sent_date") PNone) ;;
    if hour_differs (current_hour now) target_hour
       || eq_str last_sent (today_str now)
    then ret tt
    else
      name <- lift (py_get info (lit "name") PNone) ;;
      let name := if truthy name then name else PStr [] in
      last_topic <- lift (py_get info (lit "last_topic") PNone) ;;
      personality <- lift (py_get info (lit "personality") (PStr (lit "Wuen"))) ;;
      let user_msg :=
        if truthy last_topic
        then lit "Hola " ++ py_str name ++ lit ", recordando que hablaste sobre: "
             ++ py_str last_topic ++ lit ". ¿Cómo te fue desde entonces?"
        else lit "Hola " ++ py_str name ++ lit ", ¿cómo te sientes hoy?" in
      history <- lift (py_get info (lit "history") (PList [])) ;;
      reply <- in_world
                 (openrouter_chat e uid user_msg personality last_topic history) ;;
      try_except
        (chat_id <- lift (py_int uid) ;;
         in_world (send_message e chat_id reply) ;;;
         record_followup e uid name reply)
        (fun ex =>
           in_world (emit (Logged EXCEPTION (lit "Failed to send follow-up to %s: %s")
                             [ArgValue (PStr uid); ArgExn ex]))).

(** [for uid, info in users.items()] *)
Fixpoint followup_loop (e : env) (keys : list str) : M tick_state unit :=
  match keys with
  | [] => ret tt
  | uid :: rest =>
      users <- get_users ;;
      info <- lift (py_getitem (PDict users) uid) ;;
      followup e uid info ;;;
      followup_loop e rest
  end.

Definition send_followups (e : env) : M world unit :=
  users <- load_users ;;
  match users with
  | PDict d =>
      fun w =>
        let (r, s) := followup_loop e (keys d) {| users_mem := d; tick_world := w |} in
        (r, tick_world s)
  | _ => raise AttributeError
  end.

(** *** Front end *)






(** *** Configuration *)

(** The text of the hard-coded default credentials is left out; each is
    a non-empty literal in the source. *)
Definition DEFAULT_TELEGRAM_TOKEN : str := lit "<telegram token literal>".
Definition DEFAULT_OPENROUTER_API_KEY : str := lit "<openrouter key literal>".

(** [os.getenv(name) or default] *)
Definition getenv_or (value : option str) (default : str) : str :=
  match value with
  | Some s => if nonempty s then s else default
  | None => default
  end.

(** The configuration block at import: the environment gives the value
    of a variable or [None]. *)
Definition configure (getenv : str -> option str) : result (str * str) :=
  let TELEGRAM_TOKEN :=
    getenv_or (getenv (lit "TELEGRAM_TOKEN")) DEFAULT_TELEGRAM_TOKEN in
  let OPENROUTER_API_KEY :=
    getenv_or (getenv (lit "OPENROUTER_API_KEY")) DEFAULT_OPENROUTER_API_KEY in
  if negb (nonempty TELEGRAM_TOKEN) || negb (nonempty OPENROUTER_API_KEY)
  then Raise EnvironmentError
  else Ok (TELEGRAM_TOKEN, OPENROUTER_API_KEY).

End Bot.

(** ** Saving then loading: the decoder inverts the encoder *)

Module JsonFacts.
Import PyStr Py Json.

(** Induction over values, with the hypothesis on every member of a list
    or a dict. *)
Lemma pyval_ind (P : pyval -> Prop) :
  P PNone ->
  (forall b, P (PBool b)) ->
  (forall z, P (PInt z)) ->
  (forall l, P (PFloat l)) ->
  (forall s, P (PStr s)) ->
  (forall l, Forall P l -> P (PList l)) ->
  (forall d, Forall (fun kv => P (snd kv)) d -> P (PDict d)) ->
  forall v, P v.
Proof.
  intros HN HB HI HF HS HL HD.
  fix IH 1.
  intros [ | b | z | l | s | l | d ].
  - exact HN.
  - apply HB.
  - apply HI.
  - apply HF.
  - apply HS.
  - apply HL. induction l as [ | x l IHl ]; constructor;
      [ apply IH | exact IHl ].
  - apply HD. induction d as [ | [k x] d IHd ]; constructor;
      [ apply IH | exact IHd ].
Qed.

(** Values the bot stores: no float, and the keys of every dict are
    distinct (as those of a Python [dict] are). *)
Fixpoint distinct (l : list str) : bool :=
  match l with
  | [] => true
  | k :: r => negb (existsb (str_eqb k) r) && distinct r
  end.

Fixpoint plain (v : pyval) : bool :=
  match v with
  | PFloat _ => false
  | PList l => forallb plain l
  | PDict d =>
      distinct (map fst d)
      && (fix members (d : list (str * pyval)) : bool :=
            match d with
            | [] => true
            | (_, x) :: r => plain x && members r
            end) d
  | _ => true
  end.

Lemma plain_dict d :
  plain (PDict d) = distinct (keys d) && forallb (fun kv => plain (snd kv)) d.
Proof.
  unfold keys. simpl. f_equal.
  induction d as [ | [k x] d IHd ]; simpl; [ reflexivity | now rewrite IHd ].
Qed.

Lemma str_eqb_eq a b : str_eqb a b = true <-> a = b.
Proof.
  unfold str_eqb. destruct (list_eq_dec N.eq_dec a b); split; congruence.
Qed.

Lemma str_eqb_refl a : str_eqb a a = true.
Proof. now apply str_eqb_eq. Qed.

Lemma str_eqb_neq a b : str_eqb a b = false <-> a <> b.
Proof.
  unfold str_eqb. destruct (list_eq_dec N.eq_dec a b); split; congruence.
Qed.

(** *** Strings *)

Lemma hex_val_hex_char n : n < 16 -> hex_val (hex_char n) = Some n.
Proof.
  intros H.
  assert (E : exists k, (k < 16)%nat /\ n = N.of_nat k).
  { exists (N.to_nat n). split; lia. }
  destruct E as (k & Hk & ->).
  do 16 (destruct k as [ | k ]; [ reflexivity | ]). lia.
Qed.

Lemma scanstring_plain c r :
  c <> 34 -> c <> 92 -> 32 <= c ->
  scanstring (c :: r) = cons_char c (scanstring r).
Proof.
  intros H1 H2 H3. cbn [scanstring].
  apply N.eqb_neq in H1, H2. rewrite H1, H2.
  assert (E : (c <? 32) = false) by (apply N.ltb_ge; assumption).
  now rewrite E.
Qed.

Lemma scanstring_escape c r :
  scanstring (escape_char c ++ r) = cons_char c (scanstring r).
Proof.
  unfold escape_char.
  destruct (c =? 34) eqn:E1; [ apply N.eqb_eq in E1; subst; reflexivity | ].
  destruct (c =? 92) eqn:E2; [ apply N.eqb_eq in E2; subst; reflexivity | ].
  destruct (c =? 10) eqn:E3; [ apply N.eqb_eq in E3; subst; reflexivity | ].
  destruct (c =? 13) eqn:E4; [ apply N.eqb_eq in E4; subst; reflexivity | ].
  destruct (c =? 9) eqn:E5; [ apply N.eqb_eq in E5; subst; reflexivity | ].
  destruct (c =? 8) eqn:E6; [ apply N.eqb_eq in E6; subst; reflexivity | ].
  destruct (c =? 12) eqn:E7; [ apply N.eqb_eq in E7; subst; reflexivity | ].
  destruct (c <? 32) eqn:E8.
  - apply N.ltb_lt in E8.
    assert (E : exists k, (k < 32)%nat /\ c = N.of_nat k).
    { exists (N.to_nat c). split; lia. }
    destruct E as (k & Hk & ->).
    do 32 (destruct k as [ | k ]; [ reflexivity || discriminate | ]). lia.
  - apply N.ltb_ge in E8. apply N.eqb_neq in E1, E2.
    now apply scanstring_plain.
Qed.

Lemma scanstring_encoded s rest :
  scanstring (flat_map escape_char s ++ 34 :: rest) = Some (s, rest).
Proof.
  induction s as [ | c s IH ]; [ reflexivity | ].
  cbn [flat_map]. rewrite <- app_assoc, scanstring_escape, IH. reflexivity.
Qed.

(** *** Numbers *)

(** What follows an encoded value in the text of [json_encode]: nothing,
    a comma or a line break. *)
Definition delimited (rest : str) : Prop :=
  match rest with
  | [] => True
  | c :: _ => c = 44 \/ c = 10
  end.

Lemma digit_of_uint_chars d rest :
  delimited rest -> scan_digits (uint_chars d ++ rest) = (d, rest).
Proof.
  intros Hr.
  induction d; cbn [uint_chars app scan_digits];
    try (cbn [digit_of N.eqb Pos.eqb]; rewrite IHd; reflexivity).
  destruct rest as [ | c r ]; [ reflexivity | ].
  simpl in Hr. destruct Hr as [-> | ->]; reflexivity.
Qed.

Lemma to_uint_head p :
  exists c r, uint_chars (Pos.to_uint p) = c :: r /\ 49 <= c <= 57.
Proof.
  assert (Hn : Pos.to_uint p = Decimal.unorm (Pos.to_uint p)).
  { rewrite <- (DecimalPos.Unsigned.to_of (Pos.to_uint p)).
    rewrite DecimalPos.Unsigned.of_to. reflexivity. }
  assert (Hz := DecimalPos.Unsigned.to_uint_nonzero p).
  assert (Hh : Pos.to_uint p = Decimal.nzhead (Pos.to_uint p)).
  { rewrite Hn at 1. unfold Decimal.unorm.
    destruct (Decimal.nzhead (Pos.to_uint p)) eqn:E; try reflexivity.
    exfalso. apply Hz. rewrite Hn. unfold Decimal.unorm. now rewrite E. }
  assert (Hl := DecimalPos.Unsigned.to_uint_nonnil p).
  destruct (Pos.to_uint p) as [ | d | d | d | d | d | d | d | d | d | d ] eqn:E;
    try (cbn [uint_chars]; eexists; eexists; split; [ reflexivity | lia ]).
  - congruence.
  - exfalso. exact (DecimalFacts.nzhead_nonzero _ _ (eq_sym Hh)).
Qed.

Lemma scan_frac_delimited rest : delimited rest -> scan_frac rest = None.
Proof.
  destruct rest as [ | c r ]; [ reflexivity | ].
  intros [-> | ->]; reflexivity.
Qed.

Lemma scan_exp_delimited rest : delimited rest -> scan_exp rest = None.
Proof.
  destruct rest as [ | c r ]; [ reflexivity | ].
  intros [-> | ->]; reflexivity.
Qed.

Lemma scan_int_part_pos p rest :
  delimited rest ->
  scan_int_part (uint_chars (Pos.to_uint p) ++ rest)
  = Some (Pos.to_uint p, rest).
Proof.
  intros Hr. destruct (to_uint_head p) as (c & r & E & Hc).
  assert (Hd := digit_of_uint_chars (Pos.to_uint p) rest Hr).
  rewrite E in *. cbn [app] in *. unfold scan_int_part.
  replace (c =? 48) with false by (symmetry; apply N.eqb_neq; lia).
  replace (is_digit c) with true
    by (symmetry; unfold is_digit; apply andb_true_iff;
        split; apply N.leb_le; lia).
  now rewrite Hd.
Qed.

Lemma scan_number_int z rest :
  delimited rest ->
  scan_number (str_of_int z ++ rest) = Some (PInt z, rest).
Proof.
  intros Hr. unfold scan_number, str_of_int.
  destruct z as [ | p | p ]; cbn [Z.to_int].
  - cbn. rewrite (scan_frac_delimited _ Hr), (scan_exp_delimited _ Hr).
    now rewrite Nat.eqb_refl.
  - assert (Hi := scan_int_part_pos p rest Hr).
    destruct (to_uint_head p) as (c & r & E & Hc).
    rewrite E in *. cbn [app] in *.
    replace (c =? 45) with false by (symmetry; apply N.eqb_neq; lia).
    rewrite Hi. cbn zeta.
    rewrite (scan_frac_delimited _ Hr), (scan_exp_delimited _ Hr).
    rewrite Nat.eqb_refl.
    change (Decimal.Pos (Pos.to_uint p)) with (Z.to_int (Z.pos p)).
    now rewrite DecimalZ.of_to.
  - cbn [app]. rewrite N.eqb_refl.
    rewrite (scan_int_part_pos p rest Hr). cbn zeta.
    rewrite (scan_frac_delimited _ Hr), (scan_exp_delimited _ Hr).
    rewrite Nat.eqb_refl.
    change (Decimal.Neg (Pos.to_uint p)) with (Z.to_int (Z.neg p)).
    now rewrite DecimalZ.of_to.
Qed.

(** The first character of an encoded integer. *)
Lemma str_of_int_head z :
  exists c r, str_of_int z = c :: r /\ (c = 45 \/ 48 <= c <= 57).
Proof.
  unfold str_of_int. destruct z as [ | p | p ]; cbn [Z.to_int].
  - exists 48, []. split; [ reflexivity | lia ].
  - destruct (to_uint_head p) as (c & r & E & Hc).
    exists c, r. split; [ exact E | lia ].
  - eexists; eexists. split; [ reflexivity | now left ].
Qed.

Lemma strip_prefix_head a p c t : a <> c -> strip_prefix (a :: p) (c :: t) = None.
Proof.
  intros H. cbn. apply N.eqb_neq in H. now rewrite H.
Qed.

Lemma scan_atom_int z rest :
  delimited rest ->
  scan_atom (str_of_int z ++ rest) = Some (PInt z, rest).
Proof.
  intros Hr. assert (Hn := scan_number_int z rest Hr).
  destruct (str_of_int_head z) as (c & r & E & Hc).
  rewrite E in *. cbn [app] in *. unfold scan_atom.
  change (lit "null") with [110; 117; 108; 108].
  change (lit "true") with [116; 114; 117; 101].
  change (lit "false") with [102; 97; 108; 115; 101].
  rewrite !strip_prefix_head by lia.
  now rewrite Hn.
Qed.

(** *** Lists and dicts *)

(** The members of a list after the first, as [json_encode] writes them
    at nesting [level]. *)
Fixpoint encode_items (level : nat) (l : list pyval) : str :=
  match l with
  | [] => []
  | y :: l' =>
      44 :: newline_indent level ++ json_encode level y ++ encode_items level l'
  end.

Fixpoint encode_members (level : nat) (l : list (str * pyval)) : str :=
  match l with
  | [] => []
  | (k, y) :: l' =>
      44 :: newline_indent level ++ encode_basestring k ++ [58; 32]
      ++ json_encode level y ++ encode_members level l'
  end.

Lemma json_encode_list level x xs :
  json_encode level (PList (x :: xs))
  = 91 :: newline_indent (S level) ++ json_encode (S level) x
    ++ encode_items (S level) xs ++ newline_indent level ++ [93].
Proof.
  cbn [json_encode]. do 4 f_equal.
  induction xs as [ | y xs IH ]; [ reflexivity | ].
  cbn [encode_items]. now rewrite IH.
Qed.

Lemma json_encode_dict level k x kvs :
  json_encode level (PDict ((k, x) :: kvs))
  = 123 :: newline_indent (S level) ++ encode_basestring k ++ [58; 32]
    ++ json_encode (S level) x
    ++ encode_members (S level) kvs ++ newline_indent level ++ [125].
Proof.
  cbn [json_encode]. do 6 f_equal.
  induction kvs as [ | [k' y] kvs IH ]; [ reflexivity | ].
  cbn [encode_members]. now rewrite IH.
Qed.

(** Fuel that suffices to decode the text of a value. *)
Fixpoint size (v : pyval) : nat :=
  match v with
  | PList l =>
      S ((fix items (l : list pyval) : nat :=
            match l with
            | [] => O
            | x :: r => S (size x + items r)
            end) l)
  | PDict d =>
      S ((fix members (d : list (str * pyval)) : nat :=
            match d with
            | [] => O
            | (_, x) :: r => S (size x + members r)
            end) d)
  | _ => 1%nat
  end.

Definition size_items (l : list pyval) : nat :=
  fold_right (fun x n => S (size x + n)) O l.

Definition size_members (d : list (str * pyval)) : nat :=
  fold_right (fun kv n => S (size (snd kv) + n)) O d.

Lemma size_list l : size (PList l) = S (size_items l).
Proof. reflexivity. Qed.

Lemma size_dict d : size (PDict d) = S (size_members d).
Proof.
  cbn [size]. f_equal.
  induction d as [ | [k x] d IH ]; [ reflexivity | ]. cbn. now rewrite IH.
Qed.

Lemma size_pos v : (1 <= size v)%nat.
Proof. destruct v; cbn [size]; lia. Qed.

(** The first character of an encoded value starts a JSON value. *)
Definition value_start (c : N) : Prop :=
  c = 34 \/ c = 123 \/ c = 91 \/ c = 110 \/ c = 116 \/ c = 102
  \/ c = 45 \/ 48 <= c <= 57.

Lemma json_encode_head level v :
  plain v = true ->
  exists c r, json_encode level v = c :: r /\ value_start c.
Proof.
  unfold value_start.
  destruct v as [ | [ | ] | z | l | s | [ | x xs ] | [ | [k x] kvs ] ];
    intros Hp; try discriminate Hp;
    try (eexists; eexists; split; [ reflexivity | tauto ]).
  destruct (str_of_int_head z) as (c & r & E & Hc).
  exists c, r. split; [ exact E | lia ].
Qed.

Lemma skip_ws_stop c t : is_ws c = false -> skip_ws (c :: t) = c :: t.
Proof. intros H. cbn. now rewrite H. Qed.

Lemma skip_ws_spaces n t : skip_ws (repeat 32 n ++ t) = skip_ws t.
Proof. induction n as [ | n IH ]; [ reflexivity | exact IH ]. Qed.

Lemma skip_ws_newline_indent level t :
  skip_ws (newline_indent level ++ t) = skip_ws t.
Proof. unfold newline_indent. cbn. apply skip_ws_spaces. Qed.

Lemma value_start_not_ws c : value_start c -> is_ws c = false.
Proof.
  unfold value_start, is_ws. intros H.
  repeat (apply orb_false_iff; split); apply N.eqb_neq; lia.
Qed.

Lemma skip_ws_encoded level v t :
  plain v = true ->
  skip_ws (json_encode level v ++ t) = json_encode level v ++ t.
Proof.
  intros Hp. destruct (json_encode_head level v Hp) as (c & r & E & Hc).
  rewrite E. cbn [app]. apply skip_ws_stop, value_start_not_ws, Hc.
Qed.

(** Distinct keys are kept as they are by [dict(pairs)]. *)
Lemma dict_set_fresh k v d :
  existsb (str_eqb k) (keys d) = false -> dict_set k v d = d ++ [(k, v)].
Proof.
  induction d as [ | [k' v'] d IH ]; [ reflexivity | ].
  cbn. intros H. apply orb_false_iff in H. destruct H as [H1 H2].
  apply str_eqb_neq in H1.
  assert (E : str_eqb k' k = false) by (apply str_eqb_neq; congruence).
  rewrite E. now rewrite IH.
Qed.

Lemma distinct_app_fresh acc k r :
  distinct (acc ++ k :: r) = true -> existsb (str_eqb k) acc = false.
Proof.
  induction acc as [ | a acc IH ]; [ reflexivity | ].
  cbn. intros H. apply andb_true_iff in H. destruct H as [H1 H2].
  apply negb_true_iff in H1. rewrite existsb_app in H1.
  apply orb_false_iff in H1. destruct H1 as [_ H1]. cbn in H1.
  apply orb_false_iff in H1. destruct H1 as [H1 _].
  apply orb_false_iff. split; [ | now apply IH ].
  apply str_eqb_neq. apply str_eqb_neq in H1. congruence.
Qed.

Lemma dict_of_pairs_distinct pairs :
  distinct (keys pairs) = true -> dict_of_pairs pairs = pairs.
Proof.
  unfold dict_of_pairs.
  assert (G : forall acc,
             distinct (keys (acc ++ pairs)) = true ->
             fold_left (fun d kv => dict_set (fst kv) (snd kv) d) pairs acc
             = acc ++ pairs).
  { induction pairs as [ | [k v] pairs IH ]; intros acc H.
    - now rewrite app_nil_r.
    - cbn [fold_left fst snd]. rewrite dict_set_fresh.
      + rewrite IH; rewrite <- app_assoc; [ reflexivity | exact H ].
      + unfold keys in *. rewrite map_app in H. cbn [map fst] in H.
        now apply distinct_app_fresh in H. }
  intros H. apply (G []). exact H.
Qed.

(** *** The decoder on encoded text *)

(** [v] is read back from its text, whatever the nesting level it was
    written at and whatever delimited text follows. *)
Definition decodes (v : pyval) : Prop :=
  forall level rest f,
    delimited rest -> (size v <= f)%nat ->
    scan_once f (json_encode level v ++ rest) = Some (v, rest).

Lemma scan_once_array f t c u :
  skip_ws t = c :: u -> value_start c ->
  scan_once (S f) (91 :: t)
  = match array_loop f (c :: u) with
    | Some (vs, r) => Some (PList vs, r)
    | None => None
    end.
Proof.
  intros E Hc. cbn [scan_once]. cbn. rewrite E.
  replace (c =? 93) with false; [ reflexivity | ].
  symmetry. apply N.eqb_neq. unfold value_start in Hc. lia.
Qed.

Lemma scan_once_object f t u :
  skip_ws t = 34 :: u ->
  scan_once (S f) (123 :: t)
  = match object_loop f u with
    | Some (pairs, r) => Some (PDict (dict_of_pairs pairs), r)
    | None => None
    end.
Proof. intros E. cbn [scan_once]. cbn. rewrite E. reflexivity. Qed.

Lemma delimited_items level xs level' rest :
  delimited (encode_items level xs ++ newline_indent level' ++ rest).
Proof. destruct xs; cbn; auto. Qed.

Lemma delimited_members level kvs level' rest :
  delimited (encode_members level kvs ++ newline_indent level' ++ rest).
Proof. destruct kvs as [ | [k y] kvs ]; cbn; auto. Qed.

Lemma array_loop_encoded level level' xs :
  Forall (fun y => plain y = true /\ decodes y) xs ->
  forall x rest f,
    plain x = true -> decodes x ->
    (size_items (x :: xs) <= f)%nat ->
    array_loop f (json_encode level x ++ encode_items level xs
                  ++ newline_indent level' ++ 93 :: rest)
    = Some (x :: xs, rest).
Proof.
  induction 1 as [ | y ys [Hpy Hy] Hys IH ]; intros x rest f Hpx Hx Hf;
    (destruct f as [ | f ]; [ cbn in Hf; lia | ]); cbn [array_loop].
  - cbn [size_items fold_right] in Hf.
    rewrite Hx; [ | apply delimited_items | lia ].
    cbn [encode_items app]. rewrite skip_ws_newline_indent.
    reflexivity.
  - cbn [size_items fold_right] in Hf.
    rewrite Hx; [ | apply delimited_items | lia ].
    cbn [encode_items app skip_ws is_ws N.eqb Pos.eqb orb].
    cbn [N.eqb Pos.eqb].
    rewrite <- !app_assoc. rewrite skip_ws_newline_indent.
    rewrite skip_ws_encoded by assumption.
    rewrite IH; [ reflexivity | assumption | assumption | ].
    cbn [size_items fold_right]. lia.
Qed.

Lemma object_loop_encoded level level' kvs :
  Forall (fun kv => plain (snd kv) = true /\ decodes (snd kv)) kvs ->
  forall k x rest f,
    plain x = true -> decodes x ->
    (size_members ((k, x) :: kvs) <= f)%nat ->
    object_loop f (flat_map escape_char k ++ 34 :: 58 :: 32 ::
                   json_encode level x ++ encode_members level kvs
                   ++ newline_indent level' ++ 125 :: rest)
    = Some ((k, x) :: kvs, rest).
Proof.
  induction 1 as [ | [k' y] ys [Hpy Hy] Hys IH ]; intros k x rest f Hpx Hx Hf;
    (destruct f as [ | f ]; [ cbn in Hf; lia | ]); cbn [object_loop];
    rewrite scanstring_encoded;
    cbn [skip_ws is_ws N.eqb Pos.eqb orb]; cbn [N.eqb Pos.eqb];
    rewrite skip_ws_encoded by assumption.
  - cbn [size_members fold_right snd] in Hf.
    rewrite Hx; [ | apply delimited_members | lia ].
    cbn [encode_members app]. rewrite skip_ws_newline_indent.
    reflexivity.
  - cbn [size_members fold_right snd] in Hf, Hpy, Hy.
    rewrite Hx; [ | apply delimited_members | lia ].
    cbn [encode_members app skip_ws is_ws N.eqb Pos.eqb orb].
    cbn [N.eqb Pos.eqb].
    unfold encode_basestring. rewrite <- !app_assoc.
    rewrite skip_ws_newline_indent.
    cbn [app skip_ws is_ws N.eqb Pos.eqb orb]. cbn [N.eqb Pos.eqb].
    rewrite <- !app_assoc. cbn [app].
    rewrite IH; [ reflexivity | assumption | assumption | ].
    cbn [size_members fold_right snd]. lia.
Qed.

Lemma plain_list_members l :
  plain (PList l) = true -> Forall (fun x => plain x = true) l.
Proof.
  cbn [plain]. intros H. apply Forall_forall.
  exact (proj1 (forallb_forall plain l) H).
Qed.

Lemma plain_dict_members d :
  plain (PDict d) = true ->
  distinct (keys d) = true /\ Forall (fun kv => plain (snd kv) = true) d.
Proof.
  rewrite plain_dict. intros H. apply andb_true_iff in H.
  destruct H as [H1 H2]. split; [ exact H1 | ].
  apply Forall_forall.
  exact (proj1 (forallb_forall (fun kv => plain (snd kv)) d) H2).
Qed.

Lemma Forall_both {A} (P Q : A -> Prop) l :
  Forall (fun x => P x -> Q x) l -> Forall P l ->
  Forall (fun x => P x /\ Q x) l.
Proof.
  induction 1; intros H'; inversion H'; subst; constructor; auto.
Qed.

Lemma plain_decodes v : plain v = true -> decodes v.
Proof.
  induction v as [ | b | z | l | s | l IH | d IH ] using pyval_ind;
    intros Hp level rest f Hr Hf;
    (destruct f as [ | f ]; [ cbn [size] in Hf; lia | ]).
  - reflexivity.
  - destruct b; reflexivity.
  - cbn [json_encode].
    assert (Ha := scan_atom_int z rest Hr).
    destruct (str_of_int_head z) as (c & r & E & Hc).
    rewrite E in *. cbn [app scan_once] in *.
    replace (c =? 34) with false by (symmetry; apply N.eqb_neq; lia).
    replace (c =? 123) with false by (symmetry; apply N.eqb_neq; lia).
    replace (c =? 91) with false by (symmetry; apply N.eqb_neq; lia).
    exact Ha.
  - discriminate Hp.
  - cbn [json_encode]. unfold encode_basestring.
    cbn [app]. rewrite <- app_assoc. cbn [app scan_once N.eqb Pos.eqb].
    now rewrite scanstring_encoded.
  - destruct l as [ | x xs ]; [ reflexivity | ].
    apply plain_list_members in Hp.
    assert (Hall := Forall_both _ _ _ IH Hp).
    inversion Hall as [ | ? ? [Hpx Hx] Hxs ]; subst.
    rewrite json_encode_list. rewrite size_list in Hf.
    destruct (json_encode_head (S level) x Hpx) as (c & r & E & Hc).
    cbn [app].
    rewrite (scan_once_array f _ c
               (r ++ encode_items (S level) xs ++ newline_indent level
                ++ 93 :: rest)).
    + rewrite app_comm_cons, <- E.
      rewrite (array_loop_encoded (S level) level xs Hxs x rest f Hpx Hx);
        [ reflexivity | lia ].
    + rewrite <- !app_assoc. rewrite skip_ws_newline_indent.
      rewrite skip_ws_encoded by assumption. rewrite E. reflexivity.
    + exact Hc.
  - destruct d as [ | [k x] kvs ]; [ reflexivity | ].
    apply plain_dict_members in Hp. destruct Hp as [Hk Hp].
    assert (Hall := Forall_both _ _ _ IH Hp).
    inversion Hall as [ | ? ? [Hpx Hx] Hxs ]; subst.
    cbn [snd] in Hpx, Hx.
    rewrite json_encode_dict. rewrite size_dict in Hf.
    cbn [app].
    rewrite (scan_once_object f _
               (flat_map escape_char k ++ 34 :: 58 :: 32 ::
                json_encode (S level) x ++ encode_members (S level) kvs
                ++ newline_indent level ++ 125 :: rest)).
    + rewrite (object_loop_encoded (S level) level kvs Hxs k x rest f Hpx Hx);
        [ | lia ].
      now rewrite dict_of_pairs_distinct.
    + rewrite <- !app_assoc. rewrite skip_ws_newline_indent.
      unfold encode_basestring.
      cbn [app skip_ws is_ws N.eqb Pos.eqb orb]. cbn [N.eqb Pos.eqb].
      rewrite <- ?app_assoc. reflexivity.
Qed.

Lemma size_le_length v :
  plain v = true -> forall level, (size v <= length (json_encode level v))%nat.
Proof.
  induction v as [ | b | z | l | s | l IH | d IH ] using pyval_ind;
    intros Hp level.
  - cbn. lia.
  - destruct b; cbn; lia.
  - cbn [json_encode size].
    destruct (str_of_int_head z) as (c & r & E & _). rewrite E. cbn. lia.
  - discriminate Hp.
  - cbn [json_encode size]. unfold encode_basestring. cbn. lia.
  - destruct l as [ | x xs ]; [ cbn; lia | ].
    apply plain_list_members in Hp.
    assert (Hall := Forall_both _ _ _ IH Hp).
    rewrite json_encode_list, size_list.
    assert (G : forall ys lv,
               Forall (fun y => plain y = true /\
                        forall level, (size y <= length (json_encode level y))%nat) ys ->
               (size_items ys <= length (encode_items lv ys))%nat).
    { induction 1 as [ | y ys [_ Hy] _ IHys ]; [ cbn; lia | ].
      cbn [size_items fold_right encode_items length].
      rewrite !length_app. specialize (Hy lv).
      unfold size_items in IHys. lia. }
    inversion Hall as [ | ? ? [Hpx Hx] Hxs ]; subst.
    cbn [size_items fold_right length]. rewrite !length_app.
    specialize (G xs (S level) Hxs). specialize (Hx (S level)).
    unfold size_items in G. cbn [length]. lia.
  - destruct d as [ | [k x] kvs ]; [ cbn; lia | ].
    apply plain_dict_members in Hp. destruct Hp as [_ Hp].
    assert (Hall := Forall_both _ _ _ IH Hp).
    rewrite json_encode_dict, size_dict.
    assert (G : forall ys lv,
               Forall (fun kv => plain (snd kv) = true /\
                        forall level,
                          (size (snd kv) <= length (json_encode level (snd kv)))%nat) ys ->
               (size_members ys <= length (encode_members lv ys))%nat).
    { induction 1 as [ | [k' y] ys [_ Hy] _ IHys ]; [ cbn; lia | ].
      cbn [size_members fold_right encode_members length snd] in *.
      rewrite !length_app. specialize (Hy lv).
      unfold size_members in IHys. lia. }
    inversion Hall as [ | ? ? [Hpx Hx] Hxs ]; subst.
    cbn [size_members fold_right length snd] in *. rewrite !length_app.
    specialize (G kvs (S level) Hxs). specialize (Hx (S level)).
    unfold size_members in G. cbn [length]. lia.
Qed.

(** [json.loads(json.dumps(v))] is [v] for every plain value. *)
Lemma json_loads_dumps v : plain v = true -> json_loads (json_dumps v) = Some v.
Proof.
  intros Hp. unfold json_loads, json_dumps.
  assert (Hs := skip_ws_encoded 0 v [] Hp). rewrite app_nil_r in Hs.
  rewrite Hs.
  assert (Hd := plain_decodes v Hp 0%nat [] (S (length (json_encode 0 v))) I).
  rewrite app_nil_r in Hd. rewrite Hd; [ reflexivity | ].
  pose proof (size_le_length v Hp 0%nat). lia.
Qed.

(** *** The fuel is never what stops the decoder *)

Lemma skip_ws_length t : (length (skip_ws t) <= length t)%nat.
Proof.
  induction t as [ | c r IH ]; [ cbn; lia | ].
  cbn [skip_ws]. destruct (is_ws c); cbn [length]; lia.
Qed.

Lemma cons_char_some c o s rest :
  cons_char c o = Some (s, rest) -> exists s', o = Some (s', rest).
Proof.
  destruct o as [ [s' r'] | ]; cbn; [ | discriminate ].
  intros [= <- <-]. now exists s'.
Qed.

Lemma scanstring_length n :
  forall t s r,
    (length t <= n)%nat -> scanstring t = Some (s, r) ->
    (length r < length t)%nat.
Proof.
  induction n as [ | n IH ]; intros t s r Hn H.
  - destruct t; [ discriminate H | cbn in Hn; lia ].
  - destruct t as [ | c t ]; [ discriminate H | ].
    cbn [length] in Hn.
    assert (Step : forall c' t' s0 rest,
               (length t' <= n)%nat ->
               cons_char c' (scanstring t') = Some (s0, rest) ->
               (length rest < length t')%nat).
    { intros c' t' s0 rest Hl Hc.
      destruct (cons_char_some _ _ _ _ Hc) as [s' Hs]. eauto. }
    cbn [scanstring] in H.
    destruct (c =? 34); [ injection H as <- <-; cbn; lia | ].
    destruct (c =? 92).
    + destruct t as [ | e r1 ]; [ discriminate H | ].
      destruct (e =? 117).
      * destruct r1 as [ | a [ | b [ | c2 [ | d r2 ] ] ] ]; try discriminate H.
        destruct (hex4 a b c2 d) as [ uni | ]; [ | discriminate H ].
        cbn [length] in *.
        destruct ((55296 <=? uni) && (uni <=? 56319)).
        -- destruct r2 as [ | b1 [ | u1 [ | e1 [ | e2 [ | e3 [ | e4 r3 ] ] ] ] ] ];
             try (apply Step in H; cbn [length] in *; lia).
           destruct (if (b1 =? 92) && (u1 =? 117) then hex4 e1 e2 e3 e4 else None)
             as [ uni2 | ];
             [ destruct ((56320 <=? uni2) && (uni2 <=? 57343)) | ];
             apply Step in H; cbn [length] in *; lia.
        -- apply Step in H; cbn [length] in *; lia.
      * destruct (unescape e); [ | discriminate H ].
        apply Step in H; cbn [length] in *; lia.
    + destruct (c <? 32); [ discriminate H | ].
      apply Step in H; cbn [length] in *; lia.
Qed.

Lemma strip_prefix_length p t r :
  strip_prefix p t = Some r -> length t = (length p + length r)%nat.
Proof.
  revert t. induction p as [ | a p IH ]; intros t H.
  - injection H as <-. reflexivity.
  - destruct t as [ | b t ]; [ discriminate H | ].
    cbn [strip_prefix] in H. destruct (a =? b); [ | discriminate H ].
    cbn [length]. now rewrite (IH t H).
Qed.

Lemma scan_digits_length t :
  (length (snd (scan_digits t)) <= length t)%nat.
Proof.
  induction t as [ | c r IH ]; [ cbn; lia | ].
  cbn [scan_digits]. destruct (digit_of c); [ | cbn; lia ].
  destruct (scan_digits r). cbn [snd length] in *. lia.
Qed.

Lemma scan_frac_length t r :
  scan_frac t = Some r -> (length r <= length t)%nat.
Proof.
  destruct t as [ | c t ]; [ discriminate | ]. cbn [scan_frac].
  destruct (c =? 46); [ | discriminate ].
  pose proof (scan_digits_length t).
  destruct (scan_digits t) as [[ ] r0]; intros [= <-]; cbn [snd length] in *; lia.
Qed.

Lemma scan_exp_length t r :
  scan_exp t = Some r -> (length r <= length t)%nat.
Proof.
  destruct t as [ | c t ]; [ discriminate | ]. cbn [scan_exp].
  destruct ((c =? 101) || (c =? 69)); [ | discriminate ].
  set (r1 := match t with
             | [] => t
             | s :: r' => if (s =? 45) || (s =? 43) then r' else t
             end).
  assert (H1 : (length r1 <= length t)%nat).
  { unfold r1. destruct t as [ | s0 t0 ]; [ lia | ].
    destruct ((s0 =? 45) || (s0 =? 43)); cbn [length]; lia. }
  pose proof (scan_digits_length r1).
  destruct (scan_digits r1) as [[ ] r0]; intros [= <-]; cbn [snd length] in *; lia.
Qed.

Lemma scan_int_part_length t d r :
  scan_int_part t = Some (d, r) -> (length r < length t)%nat.
Proof.
  destruct t as [ | c t ]; [ discriminate | ]. unfold scan_int_part.
  destruct (c =? 48); [ intros [= <- <-]; cbn; lia | ].
  destruct (is_digit c) eqn:Ed; [ | discriminate ].
  cbn [scan_digits].
  assert (Hd : exists mk, digit_of c = Some mk).
  { unfold is_digit in Ed. apply andb_true_iff in Ed. destruct Ed as [E1 E2].
    apply N.leb_le in E1, E2.
    assert (E : exists k, (k < 10)%nat /\ c = 48 + N.of_nat k).
    { exists (N.to_nat (c - 48)). split; lia. }
    destruct E as (k & Hk & ->).
    do 10 (destruct k as [ | k ]; [ eexists; reflexivity | ]). lia. }
  destruct Hd as [mk ->].
  pose proof (scan_digits_length t).
  destruct (scan_digits t) as [d0 r0]. intros [= <- <-].
  cbn [snd length] in *. lia.
Qed.

Lemma scan_number_length t v r :
  scan_number t = Some (v, r) -> (length r < length t)%nat.
Proof.
  unfold scan_number.
  set (p := match t with
            | [] => (false, t)
            | c :: r0 => if c =? 45 then (true, r0) else (false, t)
            end).
  assert (Hp : (length (snd p) <= length t)%nat).
  { unfold p. destruct t as [ | c r0 ]; [ cbn; lia | ].
    destruct (c =? 45); cbn; lia. }
  destruct p as [neg t1]. cbn [snd] in Hp.
  destruct (scan_int_part t1) as [ [d r0] | ] eqn:Ei; [ | discriminate ].
  apply scan_int_part_length in Ei.
  set (r1 := match scan_frac r0 with Some r' => r' | None => r0 end).
  assert (H1 : (length r1 <= length r0)%nat).
  { unfold r1. destruct (scan_frac r0) eqn:Ef; [ | lia ].
    now apply scan_frac_length in Ef. }
  set (r2 := match scan_exp r1 with Some r' => r' | None => r1 end).
  assert (H2 : (length r2 <= length r1)%nat).
  { unfold r2. destruct (scan_exp r1) eqn:Ee; [ | lia ].
    now apply scan_exp_length in Ee. }
  destruct (Nat.eqb (length r2) (length r0)); intros [= <- <-]; lia.
Qed.

Lemma scan_atom_length t v r :
  scan_atom t = Some (v, r) -> (length r < length t)%nat.
Proof.
  unfold scan_atom.
  repeat match goal with
         | |- context [strip_prefix ?p t] =>
             let E := fresh "E" in
             destruct (strip_prefix p t) eqn:E;
             [ apply strip_prefix_length in E; intros [= <- <-];
               rewrite E; cbn; lia | ]
         | |- context [scan_number t] =>
             let E := fresh "E" in
             destruct (scan_number t) as [ [v0 r0] | ] eqn:E;
             [ apply scan_number_length in E; intros [= <- <-]; exact E | ]
         end.
  discriminate.
Qed.

(** A successful decoding consumes text, and succeeds as well with any
    fuel that is at least the length of the text consumed. *)
Lemma fuel_enough f :
  (forall t v r,
      scan_once f t = Some (v, r) ->
      (length r < length t)%nat
      /\ forall f', (length t - length r <= f')%nat ->
                    scan_once f' t = Some (v, r))
  /\ (forall t vs r,
        array_loop f t = Some (vs, r) ->
        (length r < length t)%nat
        /\ forall f', (length t - length r <= f')%nat ->
                      array_loop f' t = Some (vs, r))
  /\ (forall t kvs r,
        object_loop f t = Some (kvs, r) ->
        (length r < length t)%nat
        /\ forall f', (length t - length r <= f')%nat ->
                      object_loop f' t = Some (kvs, r)).
Proof.
  induction f as [ | f (IHv & IHa & IHo) ];
    [ repeat split; intros; discriminate | ].
  split; [ | split ].
  - intros t v r H. destruct t as [ | c t ]; [ discriminate H | ].
    cbn [scan_once] in H.
    destruct (c =? 34) eqn:E1.
    { destruct (scanstring t) as [ [s r'] | ] eqn:Es; [ | discriminate H ].
      injection H as <- <-.
      apply (scanstring_length (length t)) in Es as Hl; [ | lia ].
      split; [ cbn; lia | ].
      intros [ | f' ] Hf; [ cbn [length] in Hf; lia | ].
      cbn [scan_once]. now rewrite E1, Es. }
    destruct (c =? 123) eqn:E2.
    { pose proof (skip_ws_length t) as Hw.
      destruct (skip_ws t) as [ | c' r' ] eqn:Ew; [ discriminate H | ].
      cbn [length] in Hw.
      destruct (c' =? 125) eqn:E3.
      { injection H as <- <-. split; [ cbn [length]; lia | ].
        intros [ | f' ] Hf; [ cbn [length] in Hf; lia | ].
        cbn [scan_once]. now rewrite E1, E2, Ew, E3. }
      destruct (c' =? 34) eqn:E4; [ | discriminate H ].
      destruct (object_loop f r') as [ [pairs r''] | ] eqn:Eo;
        [ | discriminate H ].
      injection H as <- <-.
      destruct (IHo _ _ _ Eo) as [Hl Hm].
      split; [ cbn [length]; lia | ].
      intros [ | f' ] Hf; [ cbn [length] in Hf; lia | ].
      cbn [scan_once]. rewrite E1, E2, Ew, E3, E4.
      rewrite (Hm f'); [ reflexivity | cbn [length] in Hf; lia ]. }
    destruct (c =? 91) eqn:E5.
    { pose proof (skip_ws_length t) as Hw.
      destruct (skip_ws t) as [ | c' r' ] eqn:Ew; [ discriminate H | ].
      cbn [length] in Hw.
      destruct (c' =? 93) eqn:E3.
      { injection H as <- <-. split; [ cbn [length]; lia | ].
        intros [ | f' ] Hf; [ cbn [length] in Hf; lia | ].
        cbn [scan_once]. now rewrite E1, E2, E5, Ew, E3. }
      destruct (array_loop f (c' :: r')) as [ [vs r''] | ] eqn:Ea;
        [ | discriminate H ].
      injection H as <- <-.
      destruct (IHa _ _ _ Ea) as [Hl Hm]. cbn [length] in Hl.
      split; [ cbn [length]; lia | ].
      intros [ | f' ] Hf; [ cbn [length] in Hf; lia | ].
      cbn [scan_once]. rewrite E1, E2, E5, Ew, E3.
      rewrite (Hm f'); [ reflexivity | cbn [length] in *; lia ]. }
    apply scan_atom_length in H as Hl. split; [ exact Hl | ].
    intros [ | f' ] Hf; [ lia | ].
    cbn [scan_once]. now rewrite E1, E2, E5.
  - intros t vs r H. cbn [array_loop] in H.
    destruct (scan_once f t) as [ [v r0] | ] eqn:Ev; [ | discriminate H ].
    destruct (IHv _ _ _ Ev) as [Hl Hm].
    pose proof (skip_ws_length r0) as Hw.
    destruct (skip_ws r0) as [ | c r' ] eqn:Ew; [ discriminate H | ].
    cbn [length] in Hw.
    destruct (c =? 93) eqn:E1.
    { injection H as <- <-. split; [ lia | ].
      intros [ | f' ] Hf; [ lia | ].
      cbn [array_loop]. rewrite (Hm f') by lia. now rewrite Ew, E1. }
    destruct (c =? 44) eqn:E2; [ | discriminate H ].
    destruct (array_loop f (skip_ws r')) as [ [vs' r''] | ] eqn:Ea;
      [ | discriminate H ].
    injection H as <- <-.
    destruct (IHa _ _ _ Ea) as [Hl' Hm'].
    pose proof (skip_ws_length r') as Hw'.
    split; [ lia | ].
    intros [ | f' ] Hf; [ lia | ].
    cbn [array_loop]. rewrite (Hm f') by lia. rewrite Ew, E1, E2.
    rewrite (Hm' f') by lia. reflexivity.
  - intros t kvs r H. cbn [object_loop] in H.
    destruct (scanstring t) as [ [k r0] | ] eqn:Es; [ | discriminate H ].
    apply (scanstring_length (length t)) in Es as Hl0; [ | lia ].
    pose proof (skip_ws_length r0) as Hw0.
    destruct (skip_ws r0) as [ | c r1 ] eqn:Ew0; [ discriminate H | ].
    cbn [length] in Hw0.
    destruct (c =? 58) eqn:E1; [ | discriminate H ].
    pose proof (skip_ws_length r1) as Hw1.
    destruct (scan_once f (skip_ws r1)) as [ [v r2] | ] eqn:Ev;
      [ | discriminate H ].
    destruct (IHv _ _ _ Ev) as [Hl Hm].
    pose proof (skip_ws_length r2) as Hw2.
    destruct (skip_ws r2) as [ | c' r3 ] eqn:Ew2; [ discriminate H | ].
    cbn [length] in Hw2.
    destruct (c' =? 125) eqn:E2.
    { injection H as <- <-. split; [ lia | ].
      intros [ | f' ] Hf; [ lia | ].
      cbn [object_loop]. rewrite Es, Ew0, E1. rewrite (Hm f') by lia.
      now rewrite Ew2, E2. }
    destruct (c' =? 44) eqn:E3; [ | discriminate H ].
    pose proof (skip_ws_length r3) as Hw3.
    destruct (skip_ws r3) as [ | q r4 ] eqn:Ew3; [ discriminate H | ].
    cbn [length] in Hw3.
    destruct (q =? 34) eqn:E4; [ | discriminate H ].
    destruct (object_loop f r4) as [ [kvs' r5] | ] eqn:Eo; [ | discriminate H ].
    injection H as <- <-.
    destruct (IHo _ _ _ Eo) as [Hl' Hm'].
    split; [ lia | ].
    intros [ | f' ] Hf; [ lia | ].
    cbn [object_loop]. rewrite Es, Ew0, E1. rewrite (Hm f') by lia.
    rewrite Ew2, E2, E3, Ew3, E4. rewrite (Hm' f') by lia. reflexivity.
Qed.

(** [json_loads] gives the value whenever some fuel decodes the whole
    text. *)
Lemma json_loads_any_fuel f t v r :
  scan_once f (skip_ws t) = Some (v, r) -> skip_ws r = [] ->
  json_loads t = Some v.
Proof.
  intros H Hr. unfold json_loads.
  destruct (proj1 (fuel_enough f) _ _ _ H) as [Hl Hm].
  rewrite (Hm (S (length t))).
  - now rewrite Hr.
  - pose proof (skip_ws_length t). lia.
Qed.

End JsonFacts.

(** ** The topic extractor against its description *)

Module TopicFacts.
Import PyStr Topic.

(** The text before the first occurrence of [sep] (all of it when [sep]
    does not occur). *)
Fixpoint before (sep : N) (s : str) : str :=
  match s with
  | [] => []
  | c :: r => if c =? sep then [] else c :: before sep r
  end.

Definition is_terminal (c : N) : bool :=
  (c =? 46) || (c =? 33) || (c =? 63) || (c =? 10).

(** The text up to the first sentence-terminal character. *)
Fixpoint up_to_terminal (s : str) : str :=
  match s with
  | [] => []
  | c :: r => if is_terminal c then [] else c :: up_to_terminal r
  end.

(** The description of the specification: the text up to the first
    terminal character, or the whole text cut to 120 characters when it
    has none. *)
Definition described_topic (message : str) : str :=
  if existsb is_terminal message then up_to_terminal message
  else take 120 message.

(** The description that holds: the separators are tried in their order
    of priority, the first one that occurs with a non-blank text before
    it gives that text, stripped, cut to 120 characters and stripped
    again; otherwise the stripped message is cut to 120 characters. *)
Definition qualifies (message : str) (sep : N) : bool :=
  contains sep message && nonempty (strip (before sep message)).

Definition topic_by_priority (message : str) : str :=
  match find (qualifies message) separators with
  | Some sep => strip (take 120 (strip (before sep message)))
  | None => take 120 (strip message)
  end.

Lemma split_not_nil sep s : split sep s <> [].
Proof.
  destruct s as [ | a r ]; cbn; [ discriminate | ].
  destruct (a =? sep); [ discriminate | ].
  destruct (split sep r); discriminate.
Qed.

Lemma hd_split sep s : hd [] (split sep s) = before sep s.
Proof.
  induction s as [ | a r IH ]; [ reflexivity | ].
  cbn. destruct (a =? sep); [ reflexivity | ].
  destruct (split sep r) as [ | h t ] eqn:E.
  - now apply split_not_nil in E.
  - cbn in *. now rewrite IH.
Qed.

Lemma topic_loop_find seps message :
  topic_loop seps message
  = match find (qualifies message) seps with
    | Some sep => Some (strip (take 120 (strip (before sep message))))
    | None => None
    end.
Proof.
  induction seps as [ | sep rest IH ]; [ reflexivity | ].
  cbn [topic_loop find]. unfold qualifies at 1. rewrite hd_split.
  destruct (contains sep message); cbn [andb]; [ | exact IH ].
  destruct (nonempty (strip (before sep message))); [ reflexivity | exact IH ].
Qed.

Lemma length_rstrip s : (length (rstrip s) <= length s)%nat.
Proof.
  induction s as [ | c r IH ]; [ cbn; lia | ].
  cbn [rstrip]. destruct (rstrip r); [ destruct (is_space c) | ]; cbn in *; lia.
Qed.

Lemma length_lstrip s : (length (lstrip s) <= length s)%nat.
Proof.
  induction s as [ | c r IH ]; [ cbn; lia | ].
  cbn [lstrip]. destruct (is_space c); cbn in *; lia.
Qed.

Lemma length_strip s : (length (strip s) <= length s)%nat.
Proof.
  unfold strip. pose proof (length_rstrip (lstrip s)).
  pose proof (length_lstrip s). lia.
Qed.

Lemma length_take n s : (length (take n s) <= n)%nat.
Proof. unfold take. rewrite length_firstn. lia. Qed.

Lemma no_terminal_find message :
  existsb is_terminal message = false ->
  find (qualifies message) separators = None.
Proof.
  intros H.
  assert (G : forall sep, is_terminal sep = true -> contains sep message = false).
  { intros sep Hs. unfold contains.
    induction message as [ | c r IH ]; [ reflexivity | ].
    cbn in *. apply orb_false_iff in H. destruct H as [H1 H2].
    rewrite (IH H2), orb_false_r.
    destruct (N.eqb_spec sep c); [ subst; congruence | reflexivity ]. }
  unfold separators, qualifies. cbn [find].
  rewrite !G by reflexivity. reflexivity.
Qed.

(** C4, as stated, fails: with an exclamation mark before a period, the
    extractor cuts at the period, not at the first terminal character. *)
Lemma described_topic_differs :
  extract_topic_from_message (lit "Hi! Bye.") = lit "Hi! Bye"
  /\ described_topic (lit "Hi! Bye.") = lit "Hi"
  /\ extract_topic_from_message (lit "Hi! Bye.")
     <> described_topic (lit "Hi! Bye.").
Proof.
  split; [ reflexivity | ]. split; [ reflexivity | ].
  vm_compute. discriminate.
Qed.

(** C4 (amended): for every input string, [extract_topic_from_message]
    tries the separators period, exclamation mark, question mark and
    newline in that order; the first one that occurs in the text with a
    non-blank text before its first occurrence gives the result: that
    text stripped of surrounding whitespace, cut to 120 characters and
    stripped again; when no separator qualifies the result is the stripped
    text cut to 120 characters.  The result never exceeds 120 characters;
    a text without any terminal character gives its stripped form cut to
    120 characters, hence itself when it has no surrounding whitespace
    and at most 120 characters; and "Hello there. How are you?" gives
    "Hello there". *)
Theorem extract_topic_by_priority :
  forall message,
    extract_topic_from_message message = topic_by_priority message
    /\ (length (extract_topic_from_message message) <= 120)%nat
    /\ (existsb is_terminal message = false ->
        extract_topic_from_message message = take 120 (strip message))
    /\ (existsb is_terminal message = false ->
        strip message = message -> (length message <= 120)%nat ->
        extract_topic_from_message message = message)
    /\ extract_topic_from_message (lit "Hello there. How are you?")
       = lit "Hello there".
Proof.
  intros message.
  assert (E : extract_topic_from_message message = topic_by_priority message).
  { unfold extract_topic_from_message, topic_by_priority.
    rewrite topic_loop_find.
    destruct message as [ | c r ]; [ reflexivity | ].
    cbn [nonempty negb].
    destruct (find (qualifies (c :: r)) separators); reflexivity. }
  assert (N0 : existsb is_terminal message = false ->
               extract_topic_from_message message = take 120 (strip message)).
  { intros H. rewrite E. unfold topic_by_priority.
    now rewrite no_terminal_find. }
  split; [ exact E | ]. split; [ | split; [ exact N0 | split ] ].
  - rewrite E. unfold topic_by_priority.
    destruct (find (qualifies message) separators).
    + pose proof (length_strip (take 120 (strip (before n message)))).
      pose proof (length_take 120 (strip (before n message))). lia.
    + apply length_take.
  - intros H Hs Hl. rewrite (N0 H), Hs. unfold take.
    now apply firstn_all2.
  - reflexivity.
Qed.

Lemma extract_topic_by_priority_witness :
  extract_topic_from_message (lit "nopunctuationatalltext")
  = lit "nopunctuationatalltext".
Proof.
  apply (proj1 (proj2 (proj2 (proj2
           (extract_topic_by_priority (lit "nopunctuationatalltext")))))).
  - reflexivity.
  - reflexivity.
  - vm_compute. lia.
Defined.

End TopicFacts.

(** ** The user store *)

Module StoreFacts.
Import PyStr Py Json PyOps JsonFacts Bot.






(** C10: for every text message from a user identifier that is not a key
    of the loaded store, [handle_message] replies with the registration
    notice and nothing else happens: the file, the dialogue memory and
    the rest of the trace are unchanged, and nothing is written. *)
Theorem handle_message_unregistered :
  forall e user text w d,
    load_users w = (Ok (PDict d), w) ->
    dict_has (str_of_int user) d = false ->
    handle_message e user text w
    = (Ok tt, add_events w [Replied user NOT_REGISTERED None]).
Proof.
  intros e user text w d Hl Hd.
  unfold handle_message, bind. rewrite Hl.
  cbn [lift py_in]. rewrite Hd. reflexivity.
Qed.

Lemma handle_message_unregistered_witness :
  let w := {| file := Text (lit "{}"); user_data := []; conversations := [];
              trace := [] |} in
  let e := {| post := fun _ => Timeout; deliver := fun _ _ => true;
              clocks := {| Clock.posix := 0; Clock.micros := 0;
                           Clock.host_offset := 0 |} |} in
  snd (handle_message e 42 (lit "hola") w)
  = add_events w [Replied 42%Z NOT_REGISTERED None].
Proof.
  intros w e.
  rewrite (handle_message_unregistered e 42 (lit "hola") w []);
    reflexivity.
Defined.

(** C6 fails on the code: the configuration never aborts, because a
    variable that is missing (or empty) is replaced by the hard-coded
    default before the check; with an empty environment start-up goes on
    with the two defaults. *)
Theorem configure_never_aborts :
  (forall getenv, exists cfg, configure getenv = Ok cfg)
  /\ configure (fun _ => None)
     = Ok (DEFAULT_TELEGRAM_TOKEN, DEFAULT_OPENROUTER_API_KEY).
Proof.
  split; [ | vm_compute; reflexivity ].
  intros getenv. unfold configure, getenv_or.
  destruct (getenv (lit "TELEGRAM_TOKEN")) as [ [ | c r ] | ];
    destruct (getenv (lit "OPENROUTER_API_KEY")) as [ [ | c' r' ] | ];
    eexists; reflexivity.
Qed.

End StoreFacts.

(** ** The handlers on a well-formed store *)

Module BotFacts.
Import PyStr Py Json PyOps JsonFacts Topic Clock Bot.

(** *** Dicts *)

Lemma dict_get_set_same k v d : dict_get k (dict_set k v d) = Some v.
Proof.
  induction d as [ | [k' v'] d IH ]; cbn.
  - now rewrite str_eqb_refl.
  - destruct (str_eqb k' k) eqn:E; cbn.
    + now rewrite str_eqb_refl.
    + now rewrite E.
Qed.

Lemma dict_get_set_other k k' v d :
  k' <> k -> dict_get k (dict_set k' v d) = dict_get k d.
Proof.
  intros Hn. apply str_eqb_neq in Hn.
  induction d as [ | [k0 v0] d IH ]; cbn.
  - now rewrite Hn.
  - destruct (str_eqb k0 k') eqn:E; cbn.
    + apply str_eqb_eq in E. subst k0. now rewrite Hn.
    + now rewrite IH.
Qed.

Lemma dict_get_none_keys k d :
  dict_get k d = None <-> existsb (str_eqb k) (keys d) = false.
Proof.
  induction d as [ | [k' v'] d IH ]; cbn; [ tauto | ].
  destruct (str_eqb k' k) eqn:E.
  - apply str_eqb_eq in E. subst. rewrite str_eqb_refl. cbn.
    split; discriminate.
  - assert (E' : str_eqb k k' = false).
    { apply str_eqb_neq. apply str_eqb_neq in E. congruence. }
    rewrite E'. exact IH.
Qed.

Lemma keys_dict_set_old k v d x :
  dict_get k d = Some x -> keys (dict_set k v d) = keys d.
Proof.
  unfold keys.
  induction d as [ | [k' v'] d IH ]; cbn; [ discriminate | ].
  destruct (str_eqb k' k) eqn:E; cbn.
  - apply str_eqb_eq in E. now subst.
  - intros H. now rewrite IH.
Qed.

Lemma keys_dict_set_new k v d :
  dict_get k d = None -> keys (dict_set k v d) = keys d ++ [k].
Proof.
  intros H. apply dict_get_none_keys in H.
  rewrite dict_set_fresh by assumption. unfold keys. now rewrite map_app.
Qed.

Lemma distinct_snoc l k :
  distinct l = true -> existsb (str_eqb k) l = false ->
  distinct (l ++ [k]) = true.
Proof.
  induction l as [ | a l IH ]; cbn; [ reflexivity | ].
  intros H1 H2. apply andb_true_iff in H1. destruct H1 as [Ha Hl].
  apply orb_false_iff in H2. destruct H2 as [Hk Hr].
  apply andb_true_iff. split; [ | now apply IH ].
  apply negb_true_iff. rewrite existsb_app. apply orb_false_iff. split.
  - now apply negb_true_iff in Ha.
  - cbn. rewrite orb_false_r. apply str_eqb_neq.
    apply str_eqb_neq in Hk. congruence.
Qed.

Lemma distinct_dict_set k v d :
  distinct (keys d) = true -> distinct (keys (dict_set k v d)) = true.
Proof.
  intros H. destruct (dict_get k d) eqn:E.
  - now rewrite (keys_dict_set_old k v d p E).
  - rewrite (keys_dict_set_new k v d E). apply distinct_snoc; [ exact H | ].
    now apply dict_get_none_keys.
Qed.

Lemma members_dict_set (P : pyval -> bool) k v d :
  forallb (fun kv => P (snd kv)) d = true -> P v = true ->
  forallb (fun kv => P (snd kv)) (dict_set k v d) = true.
Proof.
  intros Hd Hv. induction d as [ | [k' v'] d IH ]; cbn in *.
  - now rewrite Hv.
  - apply andb_true_iff in Hd. destruct Hd as [H1 H2].
    destruct (str_eqb k' k); cbn; apply andb_true_iff; split; auto.
Qed.

Lemma members_dict_get (P : pyval -> bool) k d v :
  forallb (fun kv => P (snd kv)) d = true -> dict_get k d = Some v ->
  P v = true.
Proof.
  intros Hd. induction d as [ | [k' v'] d IH ]; cbn in *; [ discriminate | ].
  apply andb_true_iff in Hd. destruct Hd as [H1 H2].
  destruct (str_eqb k' k); [ intros [= <-]; exact H1 | now apply IH ].
Qed.

Lemma plain_dict_set k v d :
  plain (PDict d) = true -> plain v = true ->
  plain (PDict (dict_set k v d)) = true.
Proof.
  rewrite !plain_dict. intros H Hv. apply andb_true_iff in H.
  destruct H as [H1 H2]. apply andb_true_iff. split.
  - now apply distinct_dict_set.
  - now apply members_dict_set.
Qed.

Lemma plain_dict_get k d v :
  plain (PDict d) = true -> dict_get k d = Some v -> plain v = true.
Proof.
  rewrite plain_dict. intros H. apply andb_true_iff in H.
  destruct H as [_ H]. now apply (members_dict_get plain).
Qed.

Lemma plain_list_app l x :
  plain (PList l) = true -> plain x = true -> plain (PList (l ++ [x])) = true.
Proof.
  cbn [plain]. intros H Hx. rewrite forallb_app, H. cbn. now rewrite Hx.
Qed.

Lemma forallb_skipn {A} (P : A -> bool) n l :
  forallb P l = true -> forallb P (skipn n l) = true.
Proof.
  revert l. induction n as [ | n IH ]; intros [ | a l ]; cbn; auto.
  intros H. apply andb_true_iff in H. now apply IH.
Qed.

Lemma plain_last_n n l :
  plain (PList l) = true -> plain (PList (last_n n l)) = true.
Proof. cbn [plain]. apply forallb_skipn. Qed.


Lemma plain_turn role content : plain (turn role content) = true.
Proof.
  unfold turn. rewrite plain_dict. cbn.
  destruct (str_eqb (lit "role") (lit "content")) eqn:E; [ | reflexivity ].
  apply str_eqb_eq in E. vm_compute in E. discriminate E.
Qed.

(** *** Worlds *)

Lemma add_events_add_events w a b :
  add_events (add_events w a) b = add_events w (a ++ b).
Proof. unfold add_events. cbn. now rewrite app_assoc. Qed.

Lemma add_events_nil w : add_events w [] = w.
Proof. destruct w. unfold add_events. cbn. now rewrite app_nil_r. Qed.

Definition empty_world : world :=
  {| file := Missing; user_data := []; conversations := []; trace := [] |}.

(** *** The completion client *)

(** The reply of [complete] and the events it adds. *)
Definition completion (e : env) (messages : list pyval) : str * list event :=
  let (r, w) := complete e messages empty_world in
  (match r with Ok s => s | Raise _ => [] end, trace w).

Lemma complete_spec e messages w :
  complete e messages w
  = (Ok (fst (completion e messages)),
     add_events w (snd (completion e messages))).
Proof.
  unfold completion, complete, try_except, bind, emit, raise, lift, ret.
  destruct (post e messages) as [ | | status body ]; cbn;
    rewrite ?add_events_add_events; try reflexivity.
  destruct (is_success status); cbn;
    rewrite ?add_events_add_events; try reflexivity.
  destruct body as [ t | ]; cbn;
    rewrite ?add_events_add_events; try reflexivity.
  destruct (json_loads t) as [ data | ]; cbn;
    rewrite ?add_events_add_events; try reflexivity.
  destruct (extract_content data) as [ content | ex ]; cbn;
    rewrite ?add_events_add_events; try reflexivity.
  destruct (truthy content); cbn;
    rewrite ?add_events_add_events; try reflexivity.
  destruct (py_strip content); cbn;
    rewrite ?add_events_add_events; reflexivity.
Qed.

(** What counts as the completion: the text read from a 2xx response
    whose body is JSON holding a non-empty reply text; anything else is a
    failure of the call. *)
Definition completion_text (o : http_outcome) : option str :=
  match o with
  | Response status (Some t) =>
      if is_success status then
        match json_loads t with
        | Some data =>
            match extract_content data with
            | Ok (PStr (c :: r)) => Some (c :: r)
            | _ => None
            end
        | None => None
        end
      else None
  | _ => None
  end.

Definition failed (o : http_outcome) : bool :=
  match completion_text o with
  | None => true
  | Some _ => false
  end.

Lemma completion_failed e messages :
  failed (post e messages) = true ->
  fst (completion e messages) = FALLBACK_CONNECT
  \/ fst (completion e messages) = FALLBACK_FORMAT.
Proof.
  unfold failed, completion_text, completion, complete, try_except, bind,
    emit, raise, lift, ret.
  destruct (post e messages) as [ | | status body ]; cbn; auto.
  destruct (is_success status); cbn; auto.
  destruct body as [ t | ]; cbn; auto.
  destruct (json_loads t) as [ data | ]; cbn; auto.
  destruct (extract_content data) as [ content | ex ]; cbn; auto.
  destruct content as [ | [ | ] | z | l | [ | c r ] | [ | x l ] | [ | x l ] ];
    cbn; auto; try discriminate.
  destruct (negb (z =? 0)%Z); cbn; auto.
  destruct (mantissa_nonzero l); cbn; auto.
Qed.

Lemma completion_succeeded e messages c :
  completion_text (post e messages) = Some c ->
  completion e messages = (strip c, [Requested messages]).
Proof.
  unfold completion_text, completion, complete, try_except, bind,
    emit, raise, lift, ret.
  destruct (post e messages) as [ | | status body ]; try discriminate.
  destruct body as [ t | ]; try discriminate.
  destruct (is_success status); try discriminate.
  destruct (json_loads t) as [ data | ]; try discriminate.
  destruct (extract_content data) as [ content | ex ]; try discriminate.
  destruct content as [ | | | | [ | c' r ] | | ]; try discriminate.
  intros [= <-]. reflexivity.
Qed.

(** Which fallback a failure gives. *)
Lemma completion_transport e messages :
  (post e messages = NetworkError \/ post e messages = Timeout
   \/ (exists status body, post e messages = Response status body
                           /\ is_success status = false)
   \/ (exists status, post e messages = Response status None)
   \/ (exists status t, post e messages = Response status (Some t)
                        /\ json_loads t = None)) ->
  fst (completion e messages) = FALLBACK_CONNECT.
Proof.
  unfold completion, complete, try_except, bind, emit, raise, lift, ret.
  intros [H | [H | [(st & b & H & Hs) | [(st & H) | (st & t & H & Ht)]]]];
    rewrite H; cbn; try reflexivity.
  - rewrite Hs. reflexivity.
  - destruct (is_success st); reflexivity.
  - destruct (is_success st); cbn; [ | reflexivity ].
    rewrite Ht. reflexivity.
Qed.

Lemma completion_no_choices e messages status t d :
  post e messages = Response status (Some t) ->
  is_success status = true ->
  json_loads t = Some (PDict d) ->
  dict_has (lit "choices") d = false ->
  fst (completion e messages) = FALLBACK_FORMAT.
Proof.
  intros H Hs Ht Hd.
  assert (E : extract_content (PDict d) = Ok PNone).
  { unfold extract_content. cbn [py_in rbind]. now rewrite Hd. }
  unfold completion, complete, try_except, bind, emit, raise, lift, ret.
  rewrite H, Hs. cbn [negb]. rewrite Ht, E. reflexivity.
Qed.

(** *** Stores *)

(** The file holds the text of the mapping [d]. *)
Definition store_of (w : world) (d : dict) : Prop :=
  file w = Text (json_dumps (PDict d)) /\ plain (PDict d) = true.

Lemma load_users_store w d : store_of w d -> load_users w = (Ok (PDict d), w).
Proof.
  intros [Hf Hp]. unfold load_users. rewrite Hf.
  now rewrite json_loads_dumps.
Qed.

Lemma store_of_write d w :
  plain (PDict d) = true -> store_of (write_file (json_dumps (PDict d)) w) d.
Proof. intros H. split; [ reflexivity | exact H ]. Qed.

Lemma store_of_add_events w d evs : store_of w d -> store_of (add_events w evs) d.
Proof. intros [Hf Hp]. split; assumption. Qed.

Lemma bind_ok {S A B} (m : M S A) (k : A -> M S B) s a s' :
  m s = (Ok a, s') -> bind m k s = k a s'.
Proof. intros H. unfold bind. now rewrite H. Qed.

Lemma bind_lift {S A B} (r : result A) (k : A -> M S B) s :
  bind (lift r) k s = match r with Ok a => k a s | Raise e => (Raise e, s) end.
Proof. destruct r; reflexivity. Qed.

Lemma openrouter_chat_spec e uid text personality last_topic history messages w :
  chat_messages text personality last_topic history = Ok messages ->
  openrouter_chat e uid text personality last_topic history w
  = (Ok (fst (completion e messages)),
     add_events w (snd (completion e messages))).
Proof.
  intros H. unfold openrouter_chat. rewrite bind_lift, H.
  apply complete_spec.
Qed.

(** The messages are built whenever the persona is a [str] and the
    history a list. *)
Lemma chat_messages_ok text p last_topic h :
  exists messages,
    chat_messages text (PStr p) last_topic (PList h) = Ok messages.
Proof.
  unfold chat_messages. cbn [py_lower rbind].
  destruct h as [ | x h ]; cbn [truthy rbind py_last py_iter];
    eexists; reflexivity.
Qed.

(** *** A conversational turn *)

Ltac key_neq :=
  let H := fresh in intro H; vm_compute in H; discriminate H.

Ltac run_lifts :=
  repeat (rewrite bind_lift;
          cbn [py_getitem py_get py_append py_setitem py_last]).

(** [user.get('personality', 'Wuen')] and [user.get('history', [])] *)
Definition personality_of (prof : dict) : pyval :=
  match dict_get (lit "personality") prof with
  | Some v => v
  | None => PStr (lit "Wuen")
  end.

Definition history_of (prof : dict) : pyval :=
  match dict_get (lit "history") prof with
  | Some v => v
  | None => PList []
  end.

(** The profile after the user turn is recorded, and after the
    assistant turn is. *)
Definition user_turn (now text : str) (prof : dict) (h : list pyval) : dict :=
  dict_set (lit "last_message_date") (PStr now)
    (dict_set (lit "history")
       (PList (last_n 30 (h ++ [turn (lit "user") text])))
       (dict_set (lit "last_topic")
          (PStr (extract_topic_from_message text)) prof)).

Definition assistant_turn (reply : str) (prof : dict) (h : list pyval) : dict :=
  dict_set (lit "history")
    (PList (last_n 30 (h ++ [turn (lit "assistant") reply]))) prof.

Lemma plain_history prof h :
  plain (PDict prof) = true -> history_of prof = PList h ->
  plain (PList h) = true.
Proof.
  unfold history_of. intros Hp Hh.
  destruct (dict_get (lit "history") prof) as [ v | ] eqn:E.
  - subst v. exact (plain_dict_get _ _ _ Hp E).
  - injection Hh as <-. reflexivity.
Qed.

Lemma plain_user_turn now text prof h :
  plain (PDict prof) = true -> plain (PList h) = true ->
  plain (PDict (user_turn now text prof h)) = true.
Proof.
  intros Hp Hh. unfold user_turn.
  repeat apply plain_dict_set; try reflexivity; try assumption.
  apply plain_last_n, plain_list_app; [ assumption | apply plain_turn ].
Qed.

Lemma plain_assistant_turn reply prof h :
  plain (PDict prof) = true -> plain (PList h) = true ->
  plain (PDict (assistant_turn reply prof h)) = true.
Proof.
  intros Hp Hh. unfold assistant_turn.
  apply plain_dict_set; [ assumption | ].
  apply plain_last_n, plain_list_app; [ assumption | apply plain_turn ].
Qed.

Lemma history_user_turn now text prof h :
  dict_get (lit "history") (user_turn now text prof h)
  = Some (PList (last_n 30 (h ++ [turn (lit "user") text]))).
Proof.
  unfold user_turn. rewrite dict_get_set_other by key_neq.
  apply dict_get_set_same.
Qed.

Lemma handle_message_registered e user message_text w d prof p h :
  store_of w d ->
  dict_get (str_of_int user) d = Some (PDict prof) ->
  personality_of prof = PStr p ->
  history_of prof = PList h ->
  let uid := str_of_int user in
  let text := strip message_text in
  let topic := extract_topic_from_message text in
  let h1 := h ++ [turn (lit "user") text] in
  let prof1 := user_turn (now_isoformat (clocks e)) text prof h in
  let d1 := dict_set uid (PDict prof1) d in
  exists messages,
    chat_messages text (PStr p) (PStr topic) (PList h1) = Ok messages /\
    let reply := fst (completion e messages) in
    let prof2 := assistant_turn reply prof1 (last_n 30 h1) in
    let d2 := dict_set uid (PDict prof2) d1 in
    plain (PDict d1) = true /\ plain (PDict d2) = true /\
    handle_message e user message_text w
    = (Ok tt,
       add_events
         (write_file (json_dumps (PDict d2))
            (add_events (write_file (json_dumps (PDict d1)) w)
               (snd (completion e messages))))
         [Replied user reply None]).
Proof.
  intros Hs Hd Hp Hh uid text topic h1 prof1 d1. fold uid in Hd.
  destruct (chat_messages_ok text p (PStr topic) h1) as [messages Hm].
  exists messages. split; [ exact Hm | ].
  intros reply prof2 d2.
  assert (Pd : plain (PDict d) = true) by apply Hs.
  assert (Pprof : plain (PDict prof) = true) by exact (plain_dict_get _ _ _ Pd Hd).
  assert (Ph : plain (PList h) = true) by exact (plain_history _ _ Pprof Hh).
  assert (Pprof1 : plain (PDict prof1) = true) by now apply plain_user_turn.
  assert (Pd1 : plain (PDict d1) = true) by now apply plain_dict_set.
  assert (Ph1 : plain (PList (last_n 30 h1)) = true).
  { apply plain_last_n, plain_list_app; [ assumption | apply plain_turn ]. }
  assert (Pprof2 : plain (PDict prof2) = true) by now apply plain_assistant_turn.
  assert (Pd2 : plain (PDict d2) = true) by now apply plain_dict_set.
  split; [ exact Pd1 | ]. split; [ exact Pd2 | ].
  unfold handle_message. fold uid. fold text.
  rewrite (bind_ok _ _ _ _ _ (load_users_store w d Hs)).
  rewrite bind_lift. cbn [py_in]. unfold dict_has. rewrite Hd.
  cbn [negb]. rewrite bind_lift. cbn [py_getitem]. rewrite Hd.
  rewrite bind_lift. cbn [py_get]. fold (personality_of prof). rewrite Hp.
  rewrite bind_lift. fold (history_of prof). rewrite Hh.
  run_lifts.
  fold topic. fold h1.
  change (dict_set (lit "last_message_date") (PStr (now_isoformat (clocks e)))
            (dict_set (lit "history") (PList (last_n 30 h1))
               (dict_set (lit "last_topic") (PStr topic) prof)))
    with prof1.
  fold d1.
  rewrite (bind_ok _ _ _ _ _ (eq_refl : save_users (PDict d1) w = (Ok tt, _))).
  rewrite (bind_ok _ _ _ _ _ (openrouter_chat_spec e uid text _ _ _ messages _ Hm)).
  fold reply.
  assert (Hs1 : store_of (add_events (write_file (json_dumps (PDict d1)) w)
                            (snd (completion e messages))) d1).
  { apply store_of_add_events, store_of_write, Pd1. }
  rewrite (bind_ok _ _ _ _ _ (load_users_store _ d1 Hs1)).
  rewrite bind_lift. cbn [py_getitem]. unfold d1 at 1.
  rewrite dict_get_set_same.
  rewrite bind_lift. cbn [py_getitem].
  assert (Hh1 : dict_get (lit "history") prof1 = Some (PList (last_n 30 h1)))
    by apply history_user_turn.
  rewrite Hh1.
  fold h1. run_lifts.
  fold prof1.
  change (dict_set (lit "history")
            (PList (last_n 30 (last_n 30 h1 ++ [turn (lit "assistant") reply])))
            prof1) with prof2.
  fold d1. fold d2.
  rewrite (bind_ok _ _ _ _ _ (eq_refl : save_users (PDict d2) _ = (Ok tt, _))).
  reflexivity.
Qed.

Definition is_log (ev : event) : bool :=
  match ev with
  | Logged _ _ _ => true
  | _ => false
  end.

(** The events of a completion: the request, then log entries only. *)
Lemma completion_events e messages :
  exists logs,
    snd (completion e messages) = Requested messages :: logs
    /\ forallb is_log logs = true.
Proof.
  unfold completion, complete, try_except, bind, emit, raise, lift, ret.
  destruct (post e messages) as [ | | status body ]; cbn;
    try (eexists; split; reflexivity).
  destruct (is_success status); cbn; try (eexists; split; reflexivity).
  destruct body as [ t | ]; cbn; try (eexists; split; reflexivity).
  destruct (json_loads t) as [ data | ]; cbn;
    try (eexists; split; reflexivity).
  destruct (extract_content data) as [ content | ex ]; cbn;
    try (eexists; split; reflexivity).
  destruct (truthy content); cbn; try (eexists; split; reflexivity).
  destruct (py_strip content); cbn; eexists; split; reflexivity.
Qed.

Lemma chat_messages_total text p last_topic history :
  history = PNone \/ (exists l, history = PList l) ->
  exists messages,
    chat_messages text (PStr p) last_topic history = Ok messages.
Proof.
  intros [-> | [l ->]].
  - unfold chat_messages. cbn [py_lower rbind truthy]. eexists; reflexivity.
  - apply chat_messages_ok.
Qed.

Lemma last_n_snoc {A} n (l : list A) x :
  last_n (S n) (l ++ [x]) = last_n n l ++ [x].
Proof.
  unfold last_n. rewrite length_app. cbn [length].
  replace (length l + 1 - S n)%nat with (length l - n)%nat by lia.
  rewrite skipn_app.
  replace (length l - n - length l)%nat with 0%nat by lia.
  reflexivity.
Qed.

(** C3: whenever the completion call fails (network error, timeout,
    non-2xx status, body that is not JSON, or body without a non-empty
    reply text), [openrouter_chat] returns normally one of the two fixed
    fallback texts, having only made the request and logged; it never
    raises when the persona is a [str] and the history a list or [None];
    a transport, status or decoding failure gives the connection text and
    a body without choices the processing text.  In a conversational turn
    of a registered user such a failure is answered with that fallback
    text, and the store with the user turn at the end of the history was
    written before the request was made. *)
Theorem completion_failure_fallback :
  forall e : env,
    (forall user_id user_message p last_topic history messages w,
        chat_messages user_message (PStr p) last_topic history = Ok messages ->
        failed (post e messages) = true ->
        exists fallback logs,
          (fallback = FALLBACK_CONNECT \/ fallback = FALLBACK_FORMAT)
          /\ forallb is_log logs = true
          /\ openrouter_chat e user_id user_message (PStr p) last_topic history w
             = (Ok fallback, add_events w (Requested messages :: logs)))
    /\ (forall user_id user_message p last_topic history w,
          history = PNone \/ (exists l, history = PList l) ->
          exists reply,
            fst (openrouter_chat e user_id user_message (PStr p) last_topic
                   history w) = Ok reply)
    /\ (forall messages,
          post e messages = NetworkError \/ post e messages = Timeout
          \/ (exists status body, post e messages = Response status body
                                  /\ is_success status = false)
          \/ (exists status, post e messages = Response status None)
          \/ (exists status t, post e messages = Response status (Some t)
                               /\ json_loads t = None) ->
          failed (post e messages) = true
          /\ fst (completion e messages) = FALLBACK_CONNECT)
    /\ (forall messages status t d,
          post e messages = Response status (Some t) ->
          is_success status = true ->
          json_loads t = Some (PDict d) ->
          dict_has (lit "choices") d = false ->
          failed (post e messages) = true
          /\ fst (completion e messages) = FALLBACK_FORMAT)
    /\ (forall user message_text w d prof p h messages,
          store_of w d ->
          dict_get (str_of_int user) d = Some (PDict prof) ->
          personality_of prof = PStr p ->
          history_of prof = PList h ->
          chat_messages (strip message_text) (PStr p)
            (PStr (extract_topic_from_message (strip message_text)))
            (PList (h ++ [turn (lit "user") (strip message_text)]))
          = Ok messages ->
          failed (post e messages) = true ->
          exists fallback logs d1 d2 prof1 earlier w',
            (fallback = FALLBACK_CONNECT \/ fallback = FALLBACK_FORMAT)
            /\ forallb is_log logs = true
            /\ handle_message e user message_text w = (Ok tt, w')
            /\ trace w'
               = trace w
                 ++ [Wrote (json_dumps (PDict d1)); Requested messages]
                 ++ logs
                 ++ [Wrote (json_dumps (PDict d2));
                     Replied user fallback None]
            /\ json_loads (json_dumps (PDict d1)) = Some (PDict d1)
            /\ dict_get (str_of_int user) d1 = Some (PDict prof1)
            /\ dict_get (lit "history") prof1
               = Some (PList (earlier
                              ++ [turn (lit "user") (strip message_text)]))).
Proof.
  intros e. split; [ | split; [ | split; [ | split ] ] ].
  - intros user_id user_message p last_topic history messages w Hm Hf.
    destruct (completion_events e messages) as (logs & He & Hl).
    exists (fst (completion e messages)), logs.
    split; [ now apply completion_failed | ]. split; [ exact Hl | ].
    rewrite (openrouter_chat_spec _ _ _ _ _ _ _ _ Hm). now rewrite He.
  - intros user_id user_message p last_topic history w Hh.
    destruct (chat_messages_total user_message p last_topic history Hh)
      as [messages Hm].
    rewrite (openrouter_chat_spec _ _ _ _ _ _ _ _ Hm). eexists; reflexivity.
  - intros messages H. split; [ | now apply completion_transport ].
    unfold failed, completion_text.
    destruct H as [H | [H | [(st & b & H & Hs) | [(st & H) | (st & t & H & Ht)]]]];
      rewrite H; try reflexivity.
    + destruct b; [ now rewrite Hs | reflexivity ].
    + destruct (is_success st); [ now rewrite Ht | reflexivity ].
  - intros messages status t d H Hs Ht Hd.
    split; [ | now apply (completion_no_choices e messages status t d) ].
    unfold failed, completion_text. rewrite H, Hs, Ht.
    unfold extract_content. cbn [py_in rbind]. now rewrite Hd.
  - intros user message_text w d prof p h messages Hs Hd Hp Hh Hm Hf.
    destruct (handle_message_registered e user message_text w d prof p h
                Hs Hd Hp Hh) as (messages' & Hm' & Pd1 & Pd2 & Hrun).
    rewrite Hm in Hm'. injection Hm' as <-.
    destruct (completion_events e messages) as (logs & He & Hl).
    rewrite He in Hrun.
    eexists (fst (completion e messages)), logs, _, _, _, _, _.
    split; [ now apply completion_failed | ]. split; [ exact Hl | ].
    split; [ exact Hrun | ].
    split; [ cbn [trace add_events write_file];
             rewrite <- !app_assoc; reflexivity | ].
    split; [ now apply json_loads_dumps | ].
    split; [ apply dict_get_set_same | ].
    rewrite history_user_turn.
    change 30%nat with (S 29). rewrite last_n_snoc. reflexivity.
Qed.

(** A store with one registered user, and an endpoint that times out. *)
Definition sample_profile : dict :=
  [(lit "name", PStr (lit "Ana"));
   (lit "time", PStr (lit "tarde"));
   (lit "personality", PStr (lit "Peter"));
   (lit "last_topic", PNone);
   (lit "history", PList []);
   (lit "last_sent_date", PNone)].

Definition sample_store : dict := [(lit "42", PDict sample_profile)].

Definition sample_world : world :=
  {| file := Text (json_dumps (PDict sample_store)); user_data := [];
     conversations := []; trace := [] |}.

Definition sample_clock : clock :=
  {| posix := 1773174000; micros := 0; host_offset := LOCAL_TZ_offset |}.

Definition timeout_env : env :=
  {| post := fun _ => Timeout; deliver := fun _ _ => true;
     clocks := sample_clock |}.

Lemma completion_failure_fallback_witness :
  exists fallback logs d1 d2 prof1 earlier w',
    (fallback = FALLBACK_CONNECT \/ fallback = FALLBACK_FORMAT)
    /\ forallb is_log logs = true
    /\ handle_message timeout_env 42 (lit "Hola. Estoy bien") sample_world
       = (Ok tt, w')
    /\ trace w'
       = trace sample_world
         ++ [Wrote (json_dumps (PDict d1));
             Requested
               [turn (lit "system") PETER_PROMPT;
                turn (lit "system") (lit "Último tema del usuario: Hola");
                turn (lit "user") (lit "Hola. Estoy bien");
                turn (lit "user") (lit "Hola. Estoy bien")]]
         ++ logs
         ++ [Wrote (json_dumps (PDict d2)); Replied 42%Z fallback None]
    /\ json_loads (json_dumps (PDict d1)) = Some (PDict d1)
    /\ dict_get (str_of_int 42) d1 = Some (PDict prof1)
    /\ dict_get (lit "history") prof1
       = Some (PList (earlier
                      ++ [turn (lit "user") (strip (lit "Hola. Estoy bien"))])).
Proof.
  apply (proj2 (proj2 (proj2 (proj2 (completion_failure_fallback timeout_env))))
           42%Z (lit "Hola. Estoy bien") sample_world sample_store
           sample_profile (lit "Peter") []).
  - split; vm_compute; reflexivity.
  - vm_compute; reflexivity.
  - vm_compute; reflexivity.
  - vm_compute; reflexivity.
  - vm_compute; reflexivity.
  - reflexivity.
Defined.

(** *** Profiles *)

Definition field (k : string) (prof : dict) : pyval :=
  match dict_get (lit k) prof with
  | Some v => v
  | None => PNone
  end.

(** A profile the handlers work on without raising: a dict whose
    persona is a [str] (or missing), whose history is a list (or
    missing) of at most 30 turns, and whose timeslot can be hashed. *)
Definition profile_ok (p : pyval) : bool :=
  match p with
  | PDict f =>
      match personality_of f with PStr _ => true | _ => false end
      && match history_of f with
         | PList h => (length h <=? 30)%nat
         | _ => false
         end
      && match field "time" f with
         | PList _ => false
         | PDict _ => false
         | _ => true
         end
  | _ => false
  end.

(** A store: distinct keys, no float, every profile as above. *)
Definition store_ok (d : dict) : bool :=
  plain (PDict d) && forallb (fun kv => profile_ok (snd kv)) d.













(** *** One follow-up *)


(** A profile is due when it has a timeslot whose hour is the current
    hour of [LOCAL_TZ] and its last sent date is not the date the host
    reads. *)
Definition due (e : env) (prof : dict) : bool :=
  truthy (field "time" prof)
  && negb (hour_differs (current_hour (clocks e))
             (match field "time" prof with
              | PStr s => table_get s TIMESLOT_HOUR
              | _ => None
              end))
  && negb (eq_str (field "last_sent_date" prof) (today_str (clocks e))).












(** *** One tick of the scheduler *)




(** The send attempts among some events: chat and whether delivered. *)
Fixpoint sends (evs : list event) : list (Z * bool) :=
  match evs with
  | [] => []
  | SendMessage chat_id _ ok :: r => (chat_id, ok) :: sends r
  | _ :: r => sends r
  end.





(** A written text is that of a store. *)
Definition write_ok (ev : event) : Prop :=
  match ev with
  | Wrote t => exists d, t = json_dumps (PDict d) /\ store_ok d = true
  | _ => True
  end.







(** The profile of [uid] in a store (empty when there is none). *)
Definition profile_at (d : dict) (uid : str) : dict :=
  match dict_get uid d with
  | Some (PDict prof) => prof
  | _ => []
  end.









(** *** Handlers that do not write *)

Definition data_ok (data : dict) : bool :=
  match dict_get (lit "name") data with
  | Some (PStr _) => true
  | None => true
  | _ => false
  end
  && match dict_get (lit "time") data with
     | Some (PStr _) => true
     | None => true
     | _ => false
     end.

Definition userdata_ok (l : list (Z * dict)) : bool :=
  forallb (fun ud => data_ok (snd ud)) l.

































(** *** The invariant of the process *)

Definition inv (w : world) : Prop :=
  (exists d, store_of w d /\ store_ok d = true)
  /\ userdata_ok (user_data w) = true
  /\ Forall write_ok (trace w).























(** *** Every update *)





(** The world of a fresh deployment, after the module-level set-up. *)
Definition initial_world : world := snd (create_store empty_world).

Lemma inv_initial_world : inv initial_world.
Proof.
  split; [ exists []; split; [ split | ]; reflexivity | ].
  split; [ reflexivity | ].
  constructor; [ | constructor ]. exists []. split; reflexivity.
Qed.




(** An exchange that answers in Spanish, and a sequence of updates: a
    registration, two texts and a tick. *)
Definition answering_env : env :=
  {| post := fun _ =>
       Response 200
         (Some (json_dumps
                  (PDict [(lit "choices",
                           PList [PDict [(lit "message",
                                          PDict [(lit "content",
                                                  PStr (lit " Gracias por contarme. "))])]])])));
     deliver := fun _ _ => true;
     clocks := sample_clock |}.



(** *** Persona and timeslot *)

(** The store a world holds (empty when the file is not that of a
    mapping). *)
Definition stored (w : world) : dict :=
  match load_users w with
  | (Ok (PDict d), _) => d
  | _ => []
  end.










(** *** Identifiers *)

(** The value of a run of digits, read after [acc]. *)
Fixpoint uint_value (acc : Z) (d : Decimal.uint) : Z :=
  match d with
  | Decimal.Nil => acc
  | Decimal.D0 d => uint_value (acc * 10 + 0) d
  | Decimal.D1 d => uint_value (acc * 10 + 1) d
  | Decimal.D2 d => uint_value (acc * 10 + 2) d
  | Decimal.D3 d => uint_value (acc * 10 + 3) d
  | Decimal.D4 d => uint_value (acc * 10 + 4) d
  | Decimal.D5 d => uint_value (acc * 10 + 5) d
  | Decimal.D6 d => uint_value (acc * 10 + 6) d
  | Decimal.D7 d => uint_value (acc * 10 + 7) d
  | Decimal.D8 d => uint_value (acc * 10 + 8) d
  | Decimal.D9 d => uint_value (acc * 10 + 9) d
  end.

Lemma int_digits_uint d :
  forall acc, int_digits true acc (uint_chars d) = Some (uint_value acc d).
Proof.
  induction d; intros acc; cbn [uint_chars uint_value]; try reflexivity;
    cbn [int_digits is_digit]; cbn; apply IHd.
Qed.

Lemma int_digits_uint_first d acc :
  d <> Decimal.Nil ->
  int_digits false acc (uint_chars d) = Some (uint_value acc d).
Proof.
  destruct d; intros H; try congruence;
    cbn [uint_chars uint_value int_digits is_digit]; cbn;
    apply int_digits_uint.
Qed.

Lemma uint_value_acc d :
  forall acc, uint_value (Z.pos acc) d = Z.pos (Pos.of_uint_acc d acc).
Proof.
  induction d; intros acc; cbn [uint_value Pos.of_uint_acc];
    try reflexivity; rewrite <- IHd; f_equal; lia.
Qed.

Lemma uint_value_of_uint d : uint_value 0 d = Z.of_N (Pos.of_uint d).
Proof.
  induction d; cbn [uint_value Pos.of_uint]; try reflexivity;
    try exact IHd;
    cbn [Z.mul Z.add Z.of_N]; apply uint_value_acc.
Qed.

Lemma uint_value_to_uint p : uint_value 0 (Pos.to_uint p) = Z.pos p.
Proof.
  rewrite uint_value_of_uint, DecimalPos.Unsigned.of_to. reflexivity.
Qed.

Lemma rstrip_no_space s :
  forallb (fun c => negb (is_space c)) s = true -> rstrip s = s.
Proof.
  induction s as [ | c r IH ]; [ reflexivity | ].
  cbn [forallb rstrip]. intros H. apply andb_true_iff in H.
  destruct H as [Hc Hr]. rewrite (IH Hr).
  destruct r; [ | reflexivity ].
  apply negb_true_iff in Hc. now rewrite Hc.
Qed.

Lemma strip_no_space s :
  forallb (fun c => negb (is_space c)) s = true -> strip s = s.
Proof.
  intros H. unfold strip.
  assert (E : lstrip s = s).
  { destruct s as [ | c r ]; [ reflexivity | ].
    cbn in *. apply andb_true_iff in H. destruct H as [Hc _].
    apply negb_true_iff in Hc. now rewrite Hc. }
  rewrite E. now apply rstrip_no_space.
Qed.

Lemma uint_chars_no_space d :
  forallb (fun c => negb (is_space c)) (uint_chars d) = true.
Proof. induction d; cbn [uint_chars forallb]; try reflexivity; exact IHd. Qed.

(** [int(str(z))] is [z]. *)
Lemma py_int_str_of_int z : py_int (str_of_int z) = Ok z.
Proof.
  unfold py_int.
  assert (Hs : strip (str_of_int z) = str_of_int z).
  { apply strip_no_space. unfold str_of_int.
    destruct (Z.to_int z); [ apply uint_chars_no_space | ].
    cbn [forallb]. exact (uint_chars_no_space d). }
  rewrite Hs. unfold str_of_int.
  destruct z as [ | p | p ]; cbn [Z.to_int].
  - reflexivity.
  - destruct (to_uint_head p) as (c & r & E & Hc).
    rewrite E.
    replace (c =? 45) with false by (symmetry; apply N.eqb_neq; lia).
    replace (c =? 43) with false by (symmetry; apply N.eqb_neq; lia).
    rewrite <- E.
    rewrite int_digits_uint_first
      by apply DecimalPos.Unsigned.to_uint_nonnil.
    now rewrite uint_value_to_uint.
  - cbn [N.eqb Pos.eqb].
    rewrite int_digits_uint_first
      by apply DecimalPos.Unsigned.to_uint_nonnil.
    now rewrite uint_value_to_uint.
Qed.

Lemma str_of_int_inj a b : str_of_int a = str_of_int b -> a = b.
Proof.
  intros H. assert (E := py_int_str_of_int a). rewrite H in E.
  rewrite py_int_str_of_int in E. now injection E.
Qed.

(** *** A tick with failing deliveries *)









(** *** The day of the last follow-up *)

(** When the host runs in [LOCAL_TZ], a user whose last sent date is the
    local date of the tick is not due. *)
Lemma not_due_when_sent_today e prof :
  host_offset (clocks e) = LOCAL_TZ_offset ->
  field "last_sent_date" prof = PStr (local_date (clocks e)) ->
  due e prof = false.
Proof.
  intros Hh Hl. unfold due. rewrite Hl. unfold today_str, local_date.
  rewrite Hh. cbn [eq_str]. rewrite str_eqb_refl. cbn [negb].
  now rewrite andb_false_r.
Qed.

(** Two ticks at 15:20 and 15:40 of 2026-03-10 in Lima, on a host whose
    clock is at UTC+03:30 (where midnight falls between them); and a tick
    at 21:05 of the same day in Lima on a host at UTC. *)
Definition tick_1520 : env :=
  {| post := post answering_env; deliver := fun _ _ => true;
     clocks := {| posix := 1773174000; micros := 0; host_offset := 12600 |} |}.

Definition tick_1540 : env :=
  {| post := post answering_env; deliver := fun _ _ => true;
     clocks := {| posix := 1773175200; micros := 0; host_offset := 12600 |} |}.

Definition tick_2105_utc : env :=
  {| post := post answering_env; deliver := fun _ _ => true;
     clocks := {| posix := 1773194700; micros := 0; host_offset := 0 |} |}.

Definition night_user_world : world :=
  {| file :=
       Text (json_dumps
               (PDict [(lit "42",
                        PDict [(lit "name", PStr (lit "Ana"));
                               (lit "time", PStr (lit "noche"));
                               (lit "personality", PStr (lit "Peter"));
                               (lit "last_topic", PNone);
                               (lit "history", PList []);
                               (lit "last_sent_date",
                                PStr (lit "2026-03-10"))])]));
     user_data := []; conversations := []; trace := [] |}.

(** C2 fails on the code: the hour is read in [LOCAL_TZ] but the date of
    the last follow-up is compared with the date of the host.  On a host
    at UTC+03:30 a user of the afternoon slot is sent a follow-up at
    15:20 and another at 15:40 of the same day in Lima, although after
    the first one the last sent date is that local date; and on a host at
    UTC a user of the night slot whose last sent date is today's local
    date is sent a follow-up at 21:05. *)
Theorem followup_twice_in_a_local_day :
  let w1 := snd (send_followups tick_1520 sample_world) in
  let w2 := snd (send_followups tick_1540 w1) in
  local_date (clocks tick_1520) = lit "2026-03-10"
  /\ local_date (clocks tick_1540) = lit "2026-03-10"
  /\ current_hour (clocks tick_1520) = 15%Z
  /\ current_hour (clocks tick_1540) = 15%Z
  /\ map fst (sends (trace w1)) = [42%Z]
  /\ field "last_sent_date" (profile_at (stored w1) (lit "42"))
     = PStr (lit "2026-03-10")
  /\ today_str (clocks tick_1540) = lit "2026-03-11"
  /\ map fst (sends (trace w2)) = [42%Z; 42%Z]
  /\ local_date (clocks tick_2105_utc) = lit "2026-03-10"
  /\ current_hour (clocks tick_2105_utc) = 21%Z
  /\ map fst (sends (trace (snd (send_followups tick_2105_utc
                                   night_user_world)))) = [42%Z].
Proof. vm_compute. repeat split. Qed.

End BotFacts.
